(** * ArtGuessingGame: a shallow embedding of the daily art guessing game

    The component under study is
    [src/art-guessing-game/src/components/ArtGuessingGame.jsx].
    Pure helpers become Rocq functions; the React state cells become one
    record that every handler transforms; network requests, console output,
    timers and calls of the renderer are recorded in a trace of events. *)

From Stdlib Require Import ZArith DecimalString.
From Stdlib Require Import PrimFloat FloatOps SpecFloat Uint63.
From stdpp Require Import base tactics option list strings.

Open Scope Z_scope.

(** ** JSON values as the handlers see them *)

Module Js.

(** The fields of a decoded response.  The collection API sends strings,
    booleans and integers; a key that is absent reads as [JUndefined]. *)
Inductive value :=
| JUndefined
| JNull
| JBool (b : bool)
| JNum (n : Z)
| JStr (s : string).

#[global] Instance value_eq_dec : EqDecision value.
Proof. solve_decision. Defined.

(** [ToBoolean]: what [&&], [||], [!] and [filter] test. *)
Definition truthy (v : value) : bool :=
  match v with
  | JUndefined | JNull => false
  | JBool b => b
  | JNum n => negb (n =? 0)
  | JStr s => negb (String.eqb s "")
  end.

(** [a === b] on these primitives. *)
Definition strict_eq (a b : value) : bool := bool_decide (a = b).

(** [a && b] returns the first falsy operand, else the last one. *)
Definition and_ (a b : value) : value := if truthy a then b else a.

End Js.

(** ** The daily seed *)

Module Daily.

(** The local calendar date read by [new Date()]: the full year, the month
    counted from 1 and the day of the month. *)
Record Date := { year : nat; month : nat; day : nat }.

(** [n.toString().padStart(len, "0")], the padding date-fns applies to each
    numeric token. *)
Definition addLeadingZeros (n len : nat) : string :=
  let digits := NilZero.string_of_uint (Nat.to_uint n) in
  String.concat "" (replicate (len - String.length digits)%nat "0"%string) +:+ digits.

(** [format(date, 'yyyyMMdd')] of date-fns. *)
Definition format_yyyyMMdd (d : Date) : string :=
  addLeadingZeros (year d) 4 +:+ addLeadingZeros (month d) 2
    +:+ addLeadingZeros (day d) 2.

(** [char.charCodeAt(0)] *)
Definition charCodeAt0 (c : Ascii.ascii) : Z := Z.of_N (Ascii.N_of_ascii c).

(** [Array.from(today).reduce((acc, char) => acc + char.charCodeAt(0), 0)] *)
Definition seed_of (today : string) : Z :=
  foldl (fun acc char => acc + charCodeAt0 char) 0 (String.list_ascii_of_string today).

Definition getDailyArtworkId (now : Date) : Z :=
  let today := format_yyyyMMdd now in
  let seed := seed_of today in
  (seed mod 500000) + 1.

End Daily.

Arguments Daily.getDailyArtworkId : simpl never.

(** ** The remote collection API *)

Module Api.

(** The keys of an object record that the component reads. *)
Record ObjectData := {
  objectID : Js.value;
  title : Js.value;
  artistDisplayName : Js.value;
  objectDate : Js.value;
  primaryImage : Js.value;
  department : Js.value;
  isPublicDomain : Js.value
}.

(** The body of a search: [objectIDs] is an array of integers, or [null]
    (or absent) when nothing matched. *)
Record SearchData := { objectIDs : option (list Z) }.

Inductive request :=
| GetObject (id : Z)
| GetSearch (q : string).

(** An awaited [fetch(...)] followed by [.json()] either rejects (the
    network failed, or the body did not parse) or yields the decoded body. *)
Inductive failure := NetworkError | ParseError.

Inductive response (A : Type) :=
| Failed (f : failure)
| Body (data : A).
Arguments Failed {A} f.
Arguments Body {A} data.

#[global] Instance request_eq_dec : EqDecision request.
Proof. solve_decision. Defined.

End Api.

(** ** Component state *)

Module Artwork.
Record t := {
  id : Js.value;
  title : Js.value;
  artist : Js.value;
  year : Js.value;
  image : Js.value;
  department : Js.value
}.
#[global] Instance artwork_eq_dec : EqDecision t.
Proof. solve_decision. Defined.
End Artwork.

Module SearchResult.
Record t := {
  id : Js.value;
  title : Js.value;
  artist : Js.value;
  year : Js.value
}.
#[global] Instance result_eq_dec : EqDecision t.
Proof. solve_decision. Defined.
End SearchResult.

(** The seven [useState] cells of the component. *)
Record State := {
  artwork : option Artwork.t;
  dotsWide : Z;
  isLoading : bool;
  open : bool;
  searchValue : string;
  gameState : string;
  searchResults : list SearchResult.t
}.

(** The values passed to [useState] on the first render. *)
Definition initial : State := {|
  artwork := None;
  dotsWide := 10;
  isLoading := true;
  open := false;
  searchValue := "";
  gameState := "playing";
  searchResults := []
|}.

(** What a handler does besides updating state. *)
Inductive event :=
| Fetch (r : Api.request)
| ConsoleError (msg : string) (f : Api.failure)
| SetTimeout (ms : Z)
| ProcessImage (imageUrl : Js.value) (dots : Z).

(** ** A monad for handler bodies

    A handler runs against the state updates queued so far and may stop with
    an exception; updates queued and events emitted before the exception
    stay. *)

Inductive exn := TypeError.

Record Result (A : Type) := {
  outcome : A + exn;
  final : State;
  emitted : list event
}.
Arguments outcome {A} _.
Arguments final {A} _.
Arguments emitted {A} _.

Definition Eff (A : Type) : Type := State -> Result A.

#[global] Instance eff_ret : MRet Eff := fun A a s =>
  {| outcome := inl a; final := s; emitted := [] |}.

#[global] Instance eff_bind : MBind Eff := fun A B k m s =>
  let r := m s in
  match outcome r with
  | inl a =>
      let r' := k a (final r) in
      {| outcome := outcome r'; final := final r'; emitted := emitted r ++ emitted r' |}
  | inr e => {| outcome := inr e; final := final r; emitted := emitted r |}
  end.

Definition throw {A} (e : exn) : Eff A := fun s =>
  {| outcome := inr e; final := s; emitted := [] |}.

Definition emit (ev : event) : Eff unit := fun s =>
  {| outcome := inl tt; final := s; emitted := [ev] |}.

Definition update (f : State -> State) : Eff unit := fun s =>
  {| outcome := inl tt; final := f s; emitted := [] |}.

(** The setters returned by [useState]. *)
Definition setArtwork (a : option Artwork.t) : Eff unit :=
  update (fun s => {| artwork := a; dotsWide := dotsWide s; isLoading := isLoading s;
                      open := open s; searchValue := searchValue s;
                      gameState := gameState s; searchResults := searchResults s |}).

Definition setDotsWide (f : Z -> Z) : Eff unit :=
  update (fun s => {| artwork := artwork s; dotsWide := f (dotsWide s); isLoading := isLoading s;
                      open := open s; searchValue := searchValue s;
                      gameState := gameState s; searchResults := searchResults s |}).

Definition setIsLoading (b : bool) : Eff unit :=
  update (fun s => {| artwork := artwork s; dotsWide := dotsWide s; isLoading := b;
                      open := open s; searchValue := searchValue s;
                      gameState := gameState s; searchResults := searchResults s |}).

Definition setOpen (b : bool) : Eff unit :=
  update (fun s => {| artwork := artwork s; dotsWide := dotsWide s; isLoading := isLoading s;
                      open := b; searchValue := searchValue s;
                      gameState := gameState s; searchResults := searchResults s |}).

Definition setSearchValue (v : string) : Eff unit :=
  update (fun s => {| artwork := artwork s; dotsWide := dotsWide s; isLoading := isLoading s;
                      open := open s; searchValue := v;
                      gameState := gameState s; searchResults := searchResults s |}).

Definition setGameState (g : string) : Eff unit :=
  update (fun s => {| artwork := artwork s; dotsWide := dotsWide s; isLoading := isLoading s;
                      open := open s; searchValue := searchValue s;
                      gameState := g; searchResults := searchResults s |}).

Definition setSearchResults (l : list SearchResult.t) : Eff unit :=
  update (fun s => {| artwork := artwork s; dotsWide := dotsWide s; isLoading := isLoading s;
                      open := open s; searchValue := searchValue s;
                      gameState := gameState s; searchResults := l |}).

Definition emits (evs : list event) : Eff unit := fun s =>
  {| outcome := inl tt; final := s; emitted := evs |}.

(** ** Fetching the artwork of the day *)

Module Fetcher.
Import Api.

(** [data.primaryImage && data.title && data.artistDisplayName && data.isPublicDomain] *)
Definition eligible (data : ObjectData) : bool :=
  Js.truthy
    (Js.and_ (Js.and_ (Js.and_ (primaryImage data) (title data))
                (artistDisplayName data))
       (isPublicDomain data)).

Definition artwork_of (data : ObjectData) : Artwork.t := {|
  Artwork.id := objectID data;
  Artwork.title := title data;
  Artwork.artist := artistDisplayName data;
  Artwork.year := objectDate data;
  Artwork.image := primaryImage data;
  Artwork.department := department data
|}.

(** [fetchDailyArtwork] up to its first [await]: the call returns to its
    caller here, with the request in flight.  [now] is the clock read by
    [getDailyArtworkId]. *)
Definition fetchDailyArtwork_start (now : Daily.Date) : Eff unit :=
  setIsLoading true ;;
  let objectId := Daily.getDailyArtworkId now in
  emit (Fetch (GetObject objectId)).

(** [fetchDailyArtwork] from the moment its request settles.  The nested
    call is not awaited: it runs up to its own first [await], then the
    [finally] block of this call runs. *)
Definition fetchDailyArtwork_resume (now : Daily.Date) (resp : response ObjectData)
  : Eff unit :=
  match resp with
  | Body data =>
      if eligible data then setArtwork (Some (artwork_of data))
      else (setArtwork None ;; fetchDailyArtwork_start now)
  | Failed f => emit (ConsoleError "Error fetching artwork:" f)
  end ;;
  setIsLoading false.

End Fetcher.

(** ** Searching the catalogue *)

Module Search.
Import Api.

(** What the remote end answers during one call of [searchArtworks]: the
    reply to the search, and the reply to the [i]-th detail request. *)
Record Server := {
  search_reply : string -> response SearchData;
  object_reply : nat -> Z -> response ObjectData
}.

(** [Promise.all]: all the bodies, or a rejection.  Which rejection is
    reported when several requests fail depends on their timing; here it is
    the first by position. *)
Fixpoint promise_all {A} (rs : list (response A)) : list A + failure :=
  match rs with
  | [] => inl []
  | Failed f :: _ => inr f
  | Body a :: rest =>
      match promise_all rest with
      | inl l => inl (a :: l)
      | inr f => inr f
      end
  end.

(** [item.primaryImage && item.isPublicDomain] *)
Definition keep (item : ObjectData) : bool :=
  Js.truthy (Js.and_ (primaryImage item) (isPublicDomain item)).

Definition format_result (item : ObjectData) : SearchResult.t := {|
  SearchResult.id := objectID item;
  SearchResult.title := title item;
  SearchResult.artist := artistDisplayName item;
  SearchResult.year := objectDate item
|}.

(** [data.objectIDs?.slice(0, 5) || []] *)
Definition limitedIds (data : SearchData) : list Z :=
  match objectIDs data with
  | Some ids => take 5 ids
  | None => []
  end.

Definition searchArtworks (srv : Server) (query : string) : Eff unit :=
  if negb (Js.truthy (Js.JStr query)) then setSearchResults []
  else
    emit (Fetch (GetSearch query)) ;;
    match search_reply srv query with
    | Failed f =>
        emit (ConsoleError "Error searching artworks:" f) ;; setSearchResults []
    | Body data =>
        let ids := limitedIds data in
        emits ((fun id => Fetch (GetObject id)) <$> ids) ;;
        match promise_all (imap (object_reply srv) ids) with
        | inr f =>
            emit (ConsoleError "Error searching artworks:" f) ;; setSearchResults []
        | inl details =>
            let formattedResults := format_result <$> List.filter keep details in
            setSearchResults formattedResults
        end
    end.

(** The identifiers of the object records requested, in order. *)
Definition object_requests (evs : list event) : list Z :=
  flat_map (fun ev => match ev with Fetch (GetObject id) => [id] | _ => [] end) evs.

End Search.

(** ** Guessing and skipping *)

Module Game.

(** Reading a property of [artwork] throws when [artwork] is [null]. *)
Definition deref (a : option Artwork.t) : Eff Artwork.t :=
  match a with
  | Some x => mret x
  | None => throw TypeError
  end.

(** A call [processImage(imageUrl)].  The drawing itself happens later, in
    the [onload] callback (see [Renderer.onload]), with the [dotsWide] of
    the render whose closure made the call: [snap]. *)
Definition processImage (snap : State) (imageUrl : Js.value) : Eff unit :=
  emit (ProcessImage imageUrl (dotsWide snap)).

(** A handler reads [artwork] and [dotsWide] from the render it was
    created in ([snap]); its updates are queued on the running state. *)
Definition handleGuess (snap : State) (selectedArtwork : SearchResult.t) : Eff unit :=
  a ← deref (artwork snap);
  (if Js.strict_eq (SearchResult.id selectedArtwork) (Artwork.id a)
   then setGameState "won"
   else (setDotsWide (fun prev => prev + 10) ;;
         processImage snap (Artwork.image a))) ;;
  setOpen false ;;
  setSearchValue "" ;;
  setSearchResults [].

Definition handleSkip (snap : State) : Eff unit :=
  setDotsWide (fun prev => prev + 10) ;;
  a ← deref (artwork snap);
  processImage snap (Artwork.image a).

(** The [useEffect] hooks that run after a render whose dependencies
    changed: the renderer on [artwork, dotsWide] (guarded by
    [artwork?.image]) and the debounce timer on [searchValue].  React
    compares dependencies by identity; comparing [artwork] by value can only
    leave out a renderer call for a fresh object with the same fields. *)
Definition effects (prev next : State) : list event :=
  (if decide (artwork prev = artwork next /\ dotsWide prev = dotsWide next) then []
   else match artwork next with
        | Some a =>
            if Js.truthy (Artwork.image a)
            then [ProcessImage (Artwork.image a) (dotsWide next)] else []
        | None => []
        end)
  ++ (if decide (searchValue prev = searchValue next) then [] else [SetTimeout 300]).

End Game.

(** ** The component as a transition system *)

Module App.
Import Api.

(** The state cells, the number of daily requests still awaiting their
    reply, and everything emitted so far. *)
Record World := {
  ui : State;
  inflight : nat;
  trace : list event
}.

Inductive action :=
| DailyResponse (now : Daily.Date) (resp : response ObjectData)
| SearchDone (srv : Search.Server) (query : string)
| InputChange (v : string)
| OpenChange (b : bool)
| Guess (selectedArtwork : SearchResult.t)
| Skip.

(** The first render followed by its effects: [fetchDailyArtwork()] runs to
    its first [await], the renderer effect finds no artwork, and the
    debounce timer is armed. *)
Definition mount (now : Daily.Date) : World :=
  let r := Fetcher.fetchDailyArtwork_start now initial in
  {| ui := final r; inflight := 1; trace := emitted r ++ [SetTimeout 300] |}.

Definition is_daily_fetch (ev : event) : bool :=
  match ev with
  | Fetch (GetObject _) => true
  | _ => false
  end.

Definition handler (s : State) (a : action) : Eff unit :=
  match a with
  | DailyResponse now resp => Fetcher.fetchDailyArtwork_resume now resp
  | SearchDone srv query => Search.searchArtworks srv query
  | InputChange v => setSearchValue v
  | OpenChange b => setOpen b
  | Guess sel => Game.handleGuess s sel
  | Skip => Game.handleSkip s
  end.

(** One event of the browser's loop: the handler runs on the current
    render, React commits the queued updates, and the effects run. *)
Definition step (w : World) (a : action) : World :=
  let r := handler (ui w) a (ui w) in
  {| ui := final r;
     inflight :=
       match a with
       | DailyResponse _ _ =>
           (inflight w - 1 + length (List.filter is_daily_fetch (emitted r)))%nat
       | _ => inflight w
       end;
     trace := trace w ++ emitted r ++ Game.effects (ui w) (final r) |}.

(** The search controls and the skip button are rendered only once
    loading has finished and while the game is being played; a reply can
    only arrive for a request in flight. *)
Definition enabled (w : World) (a : action) : Prop :=
  match a with
  | DailyResponse _ _ => (0 < inflight w)%nat
  | SearchDone _ _ => True
  | InputChange _ | OpenChange _ | Guess _ | Skip =>
      isLoading (ui w) = false /\ gameState (ui w) = "playing"%string
  end.

Inductive reachable : World -> Prop :=
| reach_mount now : reachable (mount now)
| reach_step w a : reachable w -> enabled w a -> reachable (step w a).

Definition run (w : World) (acts : list action) : World := foldl step w acts.

End App.

(** ** The dot renderer *)

Module Renderer.

(** One RGBA sample of the hidden canvas. *)
Record Sample := { red : Z; green : Z; blue : Z; alpha : Z }.

(** A loaded image: its natural size, and the samples the browser leaves
    on a [w] by [h] canvas when [drawImage] scales the image onto it (how
    it resamples is the browser's business). *)
Record Image := {
  width : Z;
  height : Z;
  scaled : nat -> nat -> nat -> nat -> Sample
}.

(** A non-negative integer below 2^53 as a JavaScript number (exactly). *)
Definition number (z : Z) : float := PrimFloat.of_uint63 (Uint63.of_Z z).

(** [Math.round]: the nearest integer, ties towards plus infinity; [None]
    stands for the results that are not finite. *)
Definition Math_round (x : float) : option Z :=
  match Prim2SF x with
  | S754_zero _ => Some 0
  | S754_finite sign m e =>
      let v := if sign then Z.neg m else Z.pos m in
      Some (if 0 <=? e then v * 2 ^ e
            else (2 * v + 2 ^ (- e)) / 2 ^ (- e + 1))
  | S754_infinity _ | S754_nan => None
  end.

(** A canvas dimension is an [unsigned long]: a number that is not finite
    is stored as 0 (the dimensions that occur are never negative). *)
Definition unsigned_long (r : option Z) : nat :=
  match r with
  | Some z => Z.to_nat z
  | None => 0%nat
  end.

(** [getImageData(0, 0, w, h).data]: four bytes per pixel, row by row. *)
Definition getImageData (img : Image) (w h : nat) : list Z :=
  y ← seq 0 h;
  x ← seq 0 w;
  let p := scaled img w h x y in [red p; green p; blue p; alpha p].

(** What is drawn on the visible canvas: [fillRect] with a fill style, or
    [beginPath], a fill style [rgb(r,g,b)], a full-circle [arc] and
    [fill]. *)
Inductive command :=
| FillRect (style : string) (x y w h : Z)
| FillArc (r g b : option Z) (cx cy : Z) (radius : float).

Record Canvases := {
  canvas_width : nat;
  canvas_height : nat;
  output_width : Z;
  output_height : Z;
  drawn : list command;
  completed : bool
}.

Definition scale : Z := 20.

(** 0.8, as the nearest binary64 value. *)
Definition point_eight : float := 0x1.999999999999ap-1%float.

(** The nested loops over the grid: one [arc] per pixel of the hidden
    canvas, in the colour read from [pixels] at the pixel's offset. *)
Definition loop_dots (img : Image) (cw ch : nat) : list command :=
  let pixels := getImageData img cw ch in
  y ← seq 0 ch;
  x ← seq 0 cw;
  let i := ((y * cw + x) * 4)%nat in
  [FillArc (pixels !! i) (pixels !! (i + 1)%nat) (pixels !! (i + 2)%nat)
     (Z.of_nat x * scale + scale / 2)
     (Z.of_nat y * scale + scale / 2)
     (number scale / number 2 * point_eight)%float].

(** The body of [img.onload] in [processImage], for the [dotsWide] of the
    closure.  [getImageData] throws on an empty rectangle, which ends the
    callback before any dot is drawn. *)
Definition onload (img : Image) (dotsWide : Z) : Canvases :=
  let aspectRatio := (number (height img) / number (width img))%float in
  let cw := unsigned_long (Some dotsWide) in
  let ch := unsigned_long (Math_round (number dotsWide * aspectRatio)) in
  let ow := dotsWide * scale in
  let oh := Z.of_nat (unsigned_long (Math_round (number dotsWide * aspectRatio))) * scale in
  let clear := FillRect "white" 0 0 ow oh in
  if (cw =? 0)%nat || (ch =? 0)%nat then
    {| canvas_width := cw; canvas_height := ch;
       output_width := ow; output_height := oh;
       drawn := [clear]; completed := false |}
  else
    {| canvas_width := cw; canvas_height := ch;
       output_width := ow; output_height := oh;
       drawn := clear :: loop_dots img cw ch; completed := true |}.

(** The dot the specification describes for cell [(x, y)] of a [w] by [h]
    grid: radius 8, centred in the cell's 20 by 20 square, in the colour
    of the cell's sample. *)
Definition dot_of (img : Image) (w h x y : nat) : command :=
  let p := scaled img w h x y in
  FillArc (Some (red p)) (Some (green p)) (Some (blue p))
    (Z.of_nat x * 20 + 10) (Z.of_nat y * 20 + 10) (number 8).

Definition centre (c : command) : option (Z * Z) :=
  match c with
  | FillArc _ _ _ cx cy _ => Some (cx, cy)
  | FillRect _ _ _ _ _ => None
  end.

(** A 4 by 3 image whose samples record the cell they belong to. *)
Definition sample_image : Image := {|
  width := 4;
  height := 3;
  scaled w h x y :=
    {| red := Z.of_nat x; green := Z.of_nat y; blue := Z.of_nat w; alpha := 255 |}
|}.

End Renderer.

(** ** Vocabulary of the specification *)

Section Vocabulary.
Import Daily Api Fetcher Search.

(** The sum of the character codes of a string, as the specification
    words it. *)
Definition sum_of_char_codes (s : string) : Z :=
  foldr Z.add 0 (charCodeAt0 <$> String.list_ascii_of_string s).

(** A decimal digit, by its character code. *)
Definition is_digit (c : Ascii.ascii) : bool :=
  (48 <=? charCodeAt0 c) && (charCodeAt0 c <=? 57).

(** [n] printed on exactly [len] digits. *)
Definition well_padded (len n : nat) : bool :=
  let cs := String.list_ascii_of_string (addLeadingZeros n len) in
  (length cs =? len)%nat && forallb is_digit cs.

(** A reply the fetcher rejects, in the specification's words: a missing
    image, title or artist, or a record that is not in the public domain. *)
Definition ineligible (data : ObjectData) : Prop :=
  Js.truthy (primaryImage data) = false
  \/ Js.truthy (title data) = false
  \/ Js.truthy (artistDisplayName data) = false
  \/ Js.truthy (isPublicDomain data) = false.

(** The replies of a server that keeps answering with rejected records. *)
Definition rejections (now : Daily.Date) (datas : list ObjectData) : list App.action :=
  (fun data => App.DailyResponse now (Body data)) <$> datas.

Definition blank : ObjectData := {|
  objectID := Js.JUndefined; title := Js.JUndefined;
  artistDisplayName := Js.JUndefined; objectDate := Js.JUndefined;
  primaryImage := Js.JUndefined; department := Js.JUndefined;
  isPublicDomain := Js.JUndefined
|}.

(** The three ways a search with a non-empty query can end. *)
Inductive search_run (srv : Server) (query : string) (s : State) : Result unit -> Prop :=
| search_rejected f :
    search_reply srv query = Failed f ->
    search_run srv query s
      {| outcome := inl tt;
         final := final (setSearchResults [] s);
         emitted := [Fetch (GetSearch query); ConsoleError "Error searching artworks:" f] |}
| search_detail_rejected data f :
    search_reply srv query = Body data ->
    promise_all (imap (object_reply srv) (limitedIds data)) = inr f ->
    search_run srv query s
      {| outcome := inl tt;
         final := final (setSearchResults [] s);
         emitted := Fetch (GetSearch query)
                      :: ((fun id => Fetch (GetObject id)) <$> limitedIds data)
                      ++ [ConsoleError "Error searching artworks:" f] |}
| search_resolved data details :
    search_reply srv query = Body data ->
    promise_all (imap (object_reply srv) (limitedIds data)) = inl details ->
    search_run srv query s
      {| outcome := inl tt;
         final := final (setSearchResults (format_result <$> List.filter keep details) s);
         emitted := Fetch (GetSearch query)
                      :: ((fun id => Fetch (GetObject id)) <$> limitedIds data) |}.

(** A search with a non-empty query hits a rejection: of the search itself,
    or of one of the detail requests it goes on to make. *)
Definition search_fails (srv : Search.Server) (query : string) : Prop :=
  (exists f, Search.search_reply srv query = Api.Failed f)
  \/ (exists data i id f,
         Search.search_reply srv query = Api.Body data
         /\ Search.limitedIds data !! i = Some id
         /\ Search.object_reply srv i id = Api.Failed f).

End Vocabulary.

(** ** Sample data *)

(** A catalogue used to run the search on concrete replies: a query yields
    seven identifiers; records with an even identifier have no image, record
    3 is not in the public domain, and the request for record 9 fails. *)
Definition sample_item (id : Z) : Api.ObjectData := {|
  Api.objectID := Js.JNum id;
  Api.title := Js.JStr "Water Lilies";
  Api.artistDisplayName := Js.JStr "Claude Monet";
  Api.objectDate := Js.JStr "1919";
  Api.primaryImage := Js.JStr (if Z.even id then "" else "https://images.example/full.jpg");
  Api.department := Js.JStr "European Paintings";
  Api.isPublicDomain := Js.JBool (negb (id =? 3))
|}.

Definition sample_server : Search.Server := {|
  Search.search_reply q :=
    if String.eqb q "offline" then Api.Failed Api.NetworkError
    else if String.eqb q "broken" then Api.Body {| Api.objectIDs := Some [1; 9; 5] |}
    else if String.eqb q "nothing" then Api.Body {| Api.objectIDs := None |}
    else Api.Body {| Api.objectIDs := Some [1; 2; 3; 4; 5; 6; 7] |};
  Search.object_reply _ id :=
    if id =? 9 then Api.Failed Api.ParseError else Api.Body (sample_item id)
|}.

(** A session used to run the game on concrete input: the artwork of
    15 January 2024 turns out to be record 5 of the sample catalogue. *)
Definition a_day : Daily.Date := {| Daily.year := 2024; Daily.month := 1; Daily.day := 15 |}.

Definition loaded : App.World :=
  App.step (App.mount a_day) (App.DailyResponse a_day (Api.Body (sample_item 5))).

(** ** What the component renders *)

Module View.

(** One [CommandItem] of the result list: its React key, whether its check
    mark is visible ([opacity-100]), and the three values of its label. *)
Record Item := {
  item_key : Js.value;
  item_checked : bool;
  item_title : Js.value;
  item_artist : Js.value;
  item_year : Js.value
}.

(** The block rendered while the game is being played: the popover with its
    trigger, input and result list, and the skip button. *)
Record Controls := {
  trigger_label : string;
  popover_open : bool;
  input_value : string;
  items : list Item;
  skip_label : string
}.

(** The congratulation block. *)
Record WonPanel := {
  won_title : Js.value;
  won_artist : Js.value;
  won_year : Js.value;
  won_department : Js.value
}.

Inductive t :=
| LoadingCard
| GameCard (resolution : Z) (controls : option Controls) (won : option WonPanel).

(** [artwork?.id] *)
Definition artwork_id (a : option Artwork.t) : Js.value :=
  match a with
  | Some x => Artwork.id x
  | None => Js.JUndefined
  end.

Definition render_item (a : option Artwork.t) (art : SearchResult.t) : Item := {|
  item_key := SearchResult.id art;
  item_checked := Js.strict_eq (SearchResult.id art) (artwork_id a);
  item_title := SearchResult.title art;
  item_artist := SearchResult.artist art;
  item_year := SearchResult.year art
|}.

(** The body of the component after its hooks: the early return while
    loading, then the card.  The congratulation block reads [artwork.title]
    without a guard. *)
Definition render (s : State) : t + exn :=
  if isLoading s then inl LoadingCard
  else
    let controls :=
      if String.eqb (gameState s) "playing" then
        Some {| trigger_label :=
                  if String.eqb (searchValue s) "" then "Search for artwork or artist..."
                  else searchValue s;
                popover_open := open s;
                input_value := searchValue s;
                items := render_item (artwork s) <$> searchResults s;
                skip_label := "Skip (+10px resolution)" |}
      else None in
    if String.eqb (gameState s) "won" then
      match artwork s with
      | Some a =>
          inl (GameCard (dotsWide s) controls
                 (Some {| won_title := Artwork.title a; won_artist := Artwork.artist a;
                          won_year := Artwork.year a;
                          won_department := Artwork.department a |}))
      | None => inr TypeError
      end
    else inl (GameCard (dotsWide s) controls None).

End View.

(** ** The debounced search *)

Module Session.

(** The component together with the timer armed by the debounce effect
    (at most one: the effect's cleanup clears the previous one) and the
    queries of the searches that have started and not yet finished. *)
Record t := {
  world : App.World;
  timer : option string;
  searching : list string
}.

Inductive action :=
| Ui (a : App.action)
| TimerFires
| SearchCompletes (srv : Search.Server) (query : string).

(** The effect on [searchValue]: when the value changed, the cleanup
    clears the pending timer and a new one is armed for the new value. *)
Definition rearm (before after : State) (pending : option string) : option string :=
  if decide (searchValue before = searchValue after) then pending
  else Some (searchValue after).

(** The empty query never reaches the network, so any server stands for it. *)
Definition unreachable_server : Search.Server := {|
  Search.search_reply _ := Api.Failed Api.NetworkError;
  Search.object_reply _ _ := Api.Failed Api.NetworkError
|}.

(** One search for [query] is no longer running. *)
Fixpoint finish (query : string) (running : list string) : list string :=
  match running with
  | [] => []
  | q :: rest => if String.eqb query q then rest else q :: finish query rest
  end.

Definition is_search_done (a : App.action) : bool :=
  match a with
  | App.SearchDone _ _ => true
  | _ => false
  end.

(** A timer that fires calls [searchArtworks(searchValue)]: the empty query
    is answered on the spot, any other starts a search that finishes later
    (its requests are recorded in the trace when it finishes). *)
Definition step (s : t) (a : action) : t :=
  match a with
  | Ui act =>
      let w' := App.step (world s) act in
      {| world := w';
         timer := rearm (App.ui (world s)) (App.ui w') (timer s);
         searching := searching s |}
  | TimerFires =>
      match timer s with
      | Some query =>
          if String.eqb query "" then
            {| world := App.step (world s) (App.SearchDone unreachable_server "");
               timer := None; searching := searching s |}
          else {| world := world s; timer := None; searching := query :: searching s |}
      | None => s
      end
  | SearchCompletes srv query =>
      {| world := App.step (world s) (App.SearchDone srv query);
         timer := timer s;
         searching := finish query (searching s) |}
  end.

Definition enabled (s : t) (a : action) : Prop :=
  match a with
  | Ui act => is_search_done act = false /\ App.enabled (world s) act
  | TimerFires => is_Some (timer s)
  | SearchCompletes _ query => query ∈ searching s
  end.

(** After the first render the debounce effect has armed a timer for the
    initial, empty value. *)
Definition mount (now : Daily.Date) : t :=
  {| world := App.mount now; timer := Some ""%string; searching := [] |}.

Inductive reachable : t -> Prop :=
| reach_mount now : reachable (mount now)
| reach_step s a : reachable s -> enabled s a -> reachable (step s a).

Definition run (s : t) (acts : list action) : t := foldl step s acts.

End Session.

(** ** More vocabulary *)

(** A list of actions each of which is enabled when its turn comes. *)
Fixpoint feasible (w : App.World) (acts : list App.action) : Prop :=
  match acts with
  | [] => True
  | a :: rest => App.enabled w a /\ feasible (App.step w a) rest
  end.

(** The value of a decimal digit. *)
Definition digit_value (c : Ascii.ascii) : Z := Daily.charCodeAt0 c - 48.

(** The exact value of a finite binary64 number as a fraction: numerator
    and positive denominator. *)
Definition fraction (x : float) : option (Z * Z) :=
  match Prim2SF x with
  | S754_zero _ => Some (0, 1)
  | S754_finite sign m e =>
      let v := if sign then Z.neg m else Z.pos m in
      Some (if 0 <=? e then (v * 2 ^ e, 1) else (v, 2 ^ (- e)))
  | S754_infinity _ | S754_nan => None
  end.

(** The closed disc of an arc lies inside the rectangle from [(0, 0)] to
    [(w, h)]: its radius [n / d] is finite and not negative, and the centre
    is at least the radius away from each of the four edges. *)
Definition inside (w h : Z) (c : Renderer.command) : Prop :=
  match c with
  | Renderer.FillArc _ _ _ cx cy radius =>
      match fraction radius with
      | Some (n, d) =>
          0 <= n /\ n <= cx * d /\ cx * d + n <= w * d
          /\ n <= cy * d /\ cy * d + n <= h * d
      | None => False
      end
  | Renderer.FillRect _ _ _ _ _ => True
  end.

(** The closed discs of two arcs do not meet: the distance between their
    centres exceeds the sum of their radii [n1 / d1] and [n2 / d2], both
    finite and not negative (compared squared, denominators cleared). *)
Definition apart (c1 c2 : Renderer.command) : Prop :=
  match c1, c2 with
  | Renderer.FillArc _ _ _ x1 y1 r1, Renderer.FillArc _ _ _ x2 y2 r2 =>
      match fraction r1, fraction r2 with
      | Some (n1, d1), Some (n2, d2) =>
          0 <= n1 /\ 0 <= n2
          /\ (n1 * d2 + n2 * d1) ^ 2
             < ((x1 - x2) ^ 2 + (y1 - y2) ^ 2) * (d1 * d2) ^ 2
      | _, _ => False
      end
  | _, _ => True
  end.

(** What holds of every reachable state of the daily fetch. *)
Definition settled_invariant (w : App.World) : Prop :=
  (App.inflight w <= 1)%nat
  /\ (is_Some (artwork (App.ui w)) -> App.inflight w = 0%nat)
  /\ (gameState (App.ui w) = "won"%string -> is_Some (artwork (App.ui w)))
  /\ (forall a, artwork (App.ui w) = Some a ->
        Js.truthy (Artwork.image a) = true
        /\ Js.truthy (Artwork.title a) = true
        /\ Js.truthy (Artwork.artist a) = true).

(** Typing [query], letting the debounce fire, typing [v], and only then
    receiving the replies for [query]. *)
Definition overtaken (srv : Search.Server) (query v : string) : list Session.action :=
  [Session.Ui (App.DailyResponse a_day (Api.Failed Api.NetworkError));
   Session.Ui (App.InputChange query);
   Session.TimerFires;
   Session.Ui (App.InputChange v);
   Session.SearchCompletes srv query].

(** Two sessions in which the controls are on screen with no artwork
    loaded and a search has listed results: one after a rejected daily reply
    (the retry is in flight), one after a failed daily request. *)
Definition awaiting_retry : App.World :=
  App.step
    (App.step (App.step (App.mount a_day) (App.DailyResponse a_day (Api.Body blank)))
       (App.InputChange "monet"))
    (App.SearchDone sample_server "monet").

Definition fetch_failed : App.World :=
  App.step
    (App.step
       (App.step (App.mount a_day) (App.DailyResponse a_day (Api.Failed Api.NetworkError)))
       (App.InputChange "monet"))
    (App.SearchDone sample_server "monet").

(** * Properties *)

(** Runs the monad: binds, setters and emissions are unfolded, the handlers
    and the pure helpers are left alone. *)
Ltac eff_run :=
  cbv [mbind mret eff_bind eff_ret emit emits throw update
       setArtwork setDotsWide setIsLoading setOpen setSearchValue setGameState
       setSearchResults outcome final emitted].

(** ** The daily seed *)

Section DailySeed.
Import Daily.

Lemma reduce_from (cs : list Ascii.ascii) (acc : Z) :
  foldl (fun acc char => acc + charCodeAt0 char) acc cs
  = acc + foldr Z.add 0 (charCodeAt0 <$> cs).
Proof.
  revert acc. induction cs as [|c cs IH]; intros acc.
  - simpl. lia.
  - rewrite fmap_cons. cbn [foldl foldr]. rewrite IH. lia.
Qed.

Lemma seed_of_sum (s : string) : seed_of s = sum_of_char_codes s.
Proof. unfold seed_of, sum_of_char_codes. rewrite reduce_from. lia. Qed.

Lemma charCodeAt0_range (c : Ascii.ascii) : 0 <= charCodeAt0 c < 256.
Proof.
  unfold charCodeAt0.
  pose proof (Ascii.N_ascii_bounded c). lia.
Qed.

Lemma seed_of_nonneg (s : string) : 0 <= seed_of s.
Proof.
  rewrite seed_of_sum. unfold sum_of_char_codes.
  induction (String.list_ascii_of_string s) as [|c cs IH]; [simpl; lia|].
  rewrite fmap_cons. cbn [foldr].
  pose proof (charCodeAt0_range c). lia.
Qed.

Lemma chars_append (s1 s2 : string) :
  String.list_ascii_of_string (s1 +:+ s2)
  = String.list_ascii_of_string s1 ++ String.list_ascii_of_string s2.
Proof. induction s1 as [|c s1 IH]; simpl; [done|]. by rewrite IH. Qed.

Lemma well_padded_below (len bound n : nat) :
  forallb (well_padded len) (seq 0 bound) = true ->
  (n < bound)%nat ->
  length (String.list_ascii_of_string (addLeadingZeros n len)) = len
  /\ forallb is_digit (String.list_ascii_of_string (addLeadingZeros n len)) = true.
Proof.
  intros Hall Hn. rewrite List.forallb_forall in Hall.
  assert (Hw : well_padded len n = true).
  { apply Hall, List.in_seq. lia. }
  unfold well_padded in Hw. cbn zeta in Hw.
  apply andb_prop in Hw as [Hlen Hdig]. by apply Nat.eqb_eq in Hlen.
Qed.

Lemma years_padded : forallb (well_padded 4) (seq 0 (Z.to_nat 10000)) = true.
Proof. vm_compute. reflexivity. Qed.

Lemma months_and_days_padded : forallb (well_padded 2) (seq 0 100) = true.
Proof. vm_compute. reflexivity. Qed.

Lemma digits_sum (cs : list Ascii.ascii) :
  forallb is_digit cs = true ->
  48 * Z.of_nat (length cs) <= foldr Z.add 0 (charCodeAt0 <$> cs)
                            <= 57 * Z.of_nat (length cs).
Proof.
  induction cs as [|c cs IH]; [simpl; lia|].
  rewrite fmap_cons. cbn [foldr forallb length]. intros Hall.
  apply andb_prop in Hall as [Hc Hcs]. specialize (IH Hcs).
  unfold is_digit in Hc. apply andb_prop in Hc as [Hlo Hhi].
  apply Z.leb_le in Hlo, Hhi. lia.
Qed.

(** On a four-digit year the formatted date is eight decimal digits. *)
Lemma format_yyyyMMdd_digits (d : Date) :
  Z.of_nat (year d) < 10000 -> (month d < 100)%nat -> (day d < 100)%nat ->
  length (String.list_ascii_of_string (format_yyyyMMdd d)) = 8%nat
  /\ forallb is_digit (String.list_ascii_of_string (format_yyyyMMdd d)) = true.
Proof.
  intros Hy Hm Hd. unfold format_yyyyMMdd. rewrite !chars_append.
  destruct (well_padded_below 4 (Z.to_nat 10000) (year d) years_padded ltac:(lia))
    as [Ly Dy].
  destruct (well_padded_below 2 100 (month d) months_and_days_padded Hm) as [Lm Dm].
  destruct (well_padded_below 2 100 (day d) months_and_days_padded Hd) as [Ld Dd].
  rewrite !length_app, !List.forallb_app, Ly, Lm, Ld, Dy, Dm, Dd. done.
Qed.

(** So the seed stays far below the modulus: the identifier is the seed
    plus one, between 385 and 457. *)
Lemma getDailyArtworkId_small (d : Date) :
  Z.of_nat (year d) < 10000 -> (month d < 100)%nat -> (day d < 100)%nat ->
  getDailyArtworkId d = seed_of (format_yyyyMMdd d) + 1
  /\ 385 <= getDailyArtworkId d <= 457.
Proof.
  intros Hy Hm Hd.
  destruct (format_yyyyMMdd_digits d Hy Hm Hd) as [Hlen Hdig].
  pose proof (digits_sum _ Hdig) as Hsum. rewrite Hlen in Hsum.
  unfold getDailyArtworkId. rewrite seed_of_sum. unfold sum_of_char_codes.
  rewrite Z.mod_small by lia. lia.
Qed.

End DailySeed.

(** C1: for every date, [getDailyArtworkId] is the sum of the character codes
    of the date formatted as yyyyMMdd, modulo 500000, plus 1; it depends on
    the date only through that string, so the same calendar date always gives
    the same identifier; the identifier lies between 1 and 500000; and for a
    year of at most four digits the formatted date is eight decimal digits. *)
Theorem getDailyArtworkId_spec :
  (forall now,
      Daily.getDailyArtworkId now
      = sum_of_char_codes (Daily.format_yyyyMMdd now) mod 500000 + 1)
  /\ (forall now later,
         Daily.format_yyyyMMdd now = Daily.format_yyyyMMdd later ->
         Daily.getDailyArtworkId now = Daily.getDailyArtworkId later)
  /\ (forall now, 1 <= Daily.getDailyArtworkId now <= 500000)
  /\ (forall now,
         Z.of_nat (Daily.year now) < 10000 ->
         (Daily.month now < 100)%nat ->
         (Daily.day now < 100)%nat ->
         let cs := String.list_ascii_of_string (Daily.format_yyyyMMdd now) in
         length cs = 8%nat /\ forallb is_digit cs = true).
Proof.
  split; [|split; [|split]].
  - intros now. unfold Daily.getDailyArtworkId. by rewrite seed_of_sum.
  - intros now later Hsame. unfold Daily.getDailyArtworkId. by rewrite Hsame.
  - intros now. unfold Daily.getDailyArtworkId.
    pose proof (Z.mod_pos_bound (Daily.seed_of (Daily.format_yyyyMMdd now)) 500000).
    lia.
  - intros now Hy Hm Hd. by apply format_yyyyMMdd_digits.
Qed.

Example daily_2024_01_15 :
  Daily.format_yyyyMMdd {| Daily.year := 2024; Daily.month := 1; Daily.day := 15 |}
    = "20240115"%string
  /\ Daily.getDailyArtworkId {| Daily.year := 2024; Daily.month := 1; Daily.day := 15 |} = 400.
Proof. split; reflexivity. Qed.

(** ** The daily fetch and its retry *)

Section DailyFetch.
Import Api Fetcher.

Lemma eligible_false_iff (data : ObjectData) :
  eligible data = false <-> ineligible data.
Proof.
  unfold eligible, ineligible, Js.and_.
  destruct (Js.truthy (primaryImage data)) eqn:Hi;
    destruct (Js.truthy (title data)) eqn:Ht;
    destruct (Js.truthy (artistDisplayName data)) eqn:Ha;
    destruct (Js.truthy (isPublicDomain data)) eqn:Hp;
    rewrite ?Hi, ?Ht, ?Ha, ?Hp; intuition congruence.
Qed.

(** What one rejected reply does to the state cells and to the network. *)
Lemma resume_ineligible now data s :
  ineligible data ->
  let r := fetchDailyArtwork_resume now (Body data) s in
  outcome r = inl tt
  /\ emitted r = [Fetch (GetObject (Daily.getDailyArtworkId now))]
  /\ artwork (final r) = None
  /\ isLoading (final r) = false
  /\ dotsWide (final r) = dotsWide s
  /\ searchValue (final r) = searchValue s
  /\ gameState (final r) = gameState s
  /\ searchResults (final r) = searchResults s.
Proof.
  intros Hbad. apply eligible_false_iff in Hbad.
  unfold fetchDailyArtwork_resume. rewrite Hbad.
  repeat split; reflexivity.
Qed.

Lemma step_ineligible w now data :
  ineligible data ->
  (0 < App.inflight w)%nat ->
  let w' := App.step w (App.DailyResponse now (Body data)) in
  App.inflight w' = App.inflight w
  /\ App.trace w' = App.trace w ++ [Fetch (GetObject (Daily.getDailyArtworkId now))]
  /\ artwork (App.ui w') = None
  /\ isLoading (App.ui w') = false.
Proof.
  intros Hbad Hpos.
  destruct (resume_ineligible now data (App.ui w) Hbad)
    as (_ & Hev & Hart & Hload & Hdots & Hsv & _).
  unfold App.step. cbn [App.handler App.ui App.inflight App.trace].
  rewrite Hev. cbn [List.filter App.is_daily_fetch length].
  repeat split; [lia | | done | done].
  f_equal. unfold Game.effects.
  rewrite Hart, Hsv.
  destruct (decide (searchValue (App.ui w) = searchValue (App.ui w))); [|done].
  by destruct (decide _).
Qed.

Lemma run_rejections now datas w :
  Forall ineligible datas ->
  App.reachable w ->
  (0 < App.inflight w)%nat ->
  let w' := App.run w (rejections now datas) in
  App.reachable w'
  /\ App.inflight w' = App.inflight w
  /\ (artwork (App.ui w) = None -> artwork (App.ui w') = None)
  /\ App.trace w'
     = App.trace w
         ++ replicate (length datas) (Fetch (GetObject (Daily.getDailyArtworkId now))).
Proof.
  intros Hall. revert w.
  induction Hall as [|data datas Hbad _ IH]; intros w Hreach Hpos.
  - simpl. by rewrite app_nil_r.
  - destruct (step_ineligible w now data Hbad Hpos) as (Hin & Htr & Hart & _).
    cbn zeta in Hin, Htr, Hart.
    destruct (IH (App.step w (App.DailyResponse now (Body data))))
      as (Hreach' & Hin' & Hart' & Htr').
    { by apply App.reach_step. }
    { lia. }
    cbn zeta in Hin', Htr', Hart'.
    unfold rejections in *. rewrite fmap_cons. simpl App.run.
    split; [done|]. split; [congruence|]. split; [auto|].
    unfold App.run in *. rewrite Htr', Htr. simpl length.
    rewrite <- app_assoc. done.
Qed.

Lemma daily_fetches_replicate n id :
  List.filter App.is_daily_fetch (replicate n (Fetch (GetObject id)))
  = replicate n (Fetch (GetObject id)).
Proof. induction n as [|n IH]; simpl; [done|]. by rewrite IH. Qed.

End DailyFetch.

(** C2: a rejected reply (image, title or artist missing, or not public
    domain) makes [fetchDailyArtwork] set the artwork to null and at once
    request the identifier of the unchanged date again, with no timer in
    between and with the request left in flight; and however many rejected
    replies arrive, the component is still waiting on one more request for
    that same identifier: the retry never settles on its own. *)
Theorem fetchDailyArtwork_retries_without_bound
  (now : Daily.Date) (data : Api.ObjectData) (datas : list Api.ObjectData)
  (Hbad : ineligible data) (Hall : Forall ineligible datas) :
  (forall s,
      let r := Fetcher.fetchDailyArtwork_resume now (Api.Body data) s in
      artwork (final r) = None
      /\ emitted r = [Fetch (Api.GetObject (Daily.getDailyArtworkId now))])
  /\ (let w := App.run (App.mount now) (rejections now datas) in
      App.reachable w
      /\ App.inflight w = 1%nat
      /\ artwork (App.ui w) = None
      /\ List.filter App.is_daily_fetch (App.trace w)
         = replicate (S (length datas))
             (Fetch (Api.GetObject (Daily.getDailyArtworkId now)))).
Proof.
  split.
  - intros s. destruct (resume_ineligible now data s Hbad) as (_ & Hev & Hart & _).
    done.
  - destruct (run_rejections now datas (App.mount now) Hall)
      as (Hreach & Hin & Hart & Htr).
    { constructor. }
    { simpl. lia. }
    cbn zeta in *. split; [done|]. split; [done|]. split; [by apply Hart|].
    rewrite Htr, List.filter_app, daily_fetches_replicate. reflexivity.
Qed.

Lemma fetchDailyArtwork_retries_without_bound_witness :
  let now := {| Daily.year := 2024; Daily.month := 1; Daily.day := 15 |} in
  let w := App.run (App.mount now) (rejections now [blank; blank; blank]) in
  App.inflight w = 1%nat
  /\ List.filter App.is_daily_fetch (App.trace w)
     = replicate 4 (Fetch (Api.GetObject 400)).
Proof.
  pose (now := {| Daily.year := 2024; Daily.month := 1; Daily.day := 15 |}).
  assert (Hblank : ineligible blank) by (left; reflexivity).
  destruct (fetchDailyArtwork_retries_without_bound now blank [blank; blank; blank]
              Hblank ltac:(repeat constructor; exact Hblank))
    as (_ & _ & Hin & _ & Htr).
  split; [exact Hin | exact Htr].
Defined.

(** ** The search client *)

Section SearchClient.
Import Api Search.

Lemma promise_all_length {A} (rs : list (response A)) (l : list A) :
  promise_all rs = inl l -> length l = length rs.
Proof.
  revert l. induction rs as [|[f|a] rs IH]; intros l; simpl.
  - by intros [= <-].
  - done.
  - destruct (promise_all rs) as [l'|f]; [|done].
    intros [= <-]. simpl. by rewrite (IH l').
Qed.

(** Every body [Promise.all] hands back is the body of the reply at the
    same position. *)
Lemma promise_all_lookup {A} (rs : list (response A)) (l : list A) i a :
  promise_all rs = inl l -> l !! i = Some a -> rs !! i = Some (Body a).
Proof.
  revert l i. induction rs as [|[f|b] rs IH]; intros l i; simpl.
  - intros [= <-]. by rewrite lookup_nil.
  - done.
  - destruct (promise_all rs) as [l'|f]; [|done].
    intros [= <-]. destruct i as [|i]; simpl.
    + by intros [= ->].
    + by apply IH.
Qed.

(** [Promise.all] rejects exactly when some reply is a rejection. *)
Lemma promise_all_failed {A} (rs : list (response A)) i f :
  rs !! i = Some (Failed f) -> exists f', promise_all rs = inr f'.
Proof.
  revert i. induction rs as [|[g|b] rs IH]; intros i; simpl.
  - by rewrite lookup_nil.
  - eauto.
  - destruct i as [|i]; simpl; [done|].
    intros Hi. destruct (IH i Hi) as [f' ->]. eauto.
Qed.

Lemma limitedIds_length data : (length (limitedIds data) <= 5)%nat.
Proof.
  unfold limitedIds. destruct (objectIDs data) as [ids|]; simpl; [|lia].
  rewrite length_take. lia.
Qed.

Lemma object_requests_fetches ids :
  object_requests ((fun id => Fetch (GetObject id)) <$> ids) = ids.
Proof.
  induction ids as [|id ids IH]; [done|].
  rewrite fmap_cons.
  change (id :: object_requests ((fun id => Fetch (GetObject id)) <$> ids) = id :: ids).
  by rewrite IH.
Qed.

Lemma object_requests_app evs1 evs2 :
  object_requests (evs1 ++ evs2) = object_requests evs1 ++ object_requests evs2.
Proof. apply flat_map_app. Qed.

Lemma object_requests_search query evs :
  object_requests (Fetch (GetSearch query) :: evs) = object_requests evs.
Proof. reflexivity. Qed.

Lemma searchArtworks_nonempty srv query s :
  query <> ""%string -> search_run srv query s (searchArtworks srv query s).
Proof.
  intros Hq. unfold searchArtworks.
  assert (Js.truthy (Js.JStr query) = true) as ->.
  { simpl. destruct (String.eqb_spec query ""); done. }
  cbn [negb].
  destruct (search_reply srv query) as [f|data] eqn:Hreply.
  - by apply search_rejected with (f := f).
  - destruct (promise_all (imap (object_reply srv) (limitedIds data)))
      as [details|f] eqn:Hall.
    + pose proof (search_resolved srv query s data details Hreply Hall) as H.
      cbv [mbind eff_bind emit emits setSearchResults update outcome final emitted] in *.
      rewrite app_nil_r. exact H.
    + pose proof (search_detail_rejected srv query s data f Hreply Hall) as H.
      cbv [mbind eff_bind emit emits setSearchResults update outcome final emitted] in *.
      rewrite app_nil_r. exact H.
Qed.

End SearchClient.

(** C6: for every non-empty query, [searchArtworks] requests the details of
    the first five identifiers of the search reply and of no other (of none
    when the reply carries no list or is a rejection), so it requests at most
    five records and [searchResults] ends with at most five elements. *)
Theorem searchArtworks_at_most_five
  (srv : Search.Server) (query : string) (s : State) (Hq : query <> ""%string) :
  let r := Search.searchArtworks srv query s in
  let requested := Search.object_requests (emitted r) in
  requested
  = match Search.search_reply srv query with
    | Api.Body {| Api.objectIDs := Some ids |} => take 5 ids
    | _ => []
    end
  /\ (length requested <= 5)%nat
  /\ (length (searchResults (final r)) <= 5)%nat.
Proof.
  intros r requested. subst requested r.
  destruct (searchArtworks_nonempty srv query s Hq)
    as [f Hreply | data f Hreply Hall | data details Hreply Hall];
    rewrite Hreply; cbn [emitted final].
  - repeat split; simpl; lia.
  - rewrite object_requests_search, object_requests_app, object_requests_fetches.
    cbn [Search.object_requests flat_map app]. rewrite app_nil_r.
    pose proof (limitedIds_length data).
    split; [by destruct data as [[ids|]]|]. split; [done|]. simpl. lia.
  - rewrite object_requests_search, object_requests_fetches.
    pose proof (limitedIds_length data) as Hlen.
    split; [by destruct data as [[ids|]]|]. split; [done|].
    cbn [setSearchResults update final searchResults]. rewrite length_fmap.
    pose proof (List.filter_length_le Search.keep details) as Hfil.
    apply promise_all_length in Hall. rewrite length_imap in Hall. lia.
Qed.

Lemma searchArtworks_at_most_five_witness :
  Search.object_requests (emitted (Search.searchArtworks sample_server "monet" initial))
  = [1; 2; 3; 4; 5]
  /\ (length (searchResults (final (Search.searchArtworks sample_server "monet" initial)))
      <= 5)%nat.
Proof.
  destruct (searchArtworks_at_most_five sample_server "monet" initial ltac:(done))
    as (Hreq & _ & Hlen).
  split; [exact Hreq | exact Hlen].
Defined.

Example search_monet_results :
  SearchResult.id <$> searchResults (final (Search.searchArtworks sample_server "monet" initial))
  = [Js.JNum 1; Js.JNum 5].
Proof. reflexivity. Qed.

(** C9: called with the empty query, [searchArtworks] sets [searchResults]
    to the empty list and returns without issuing any request. *)
Theorem searchArtworks_empty_query (srv : Search.Server) (s : State) :
  let r := Search.searchArtworks srv "" s in
  outcome r = inl tt
  /\ emitted r = []
  /\ searchResults (final r) = []
  /\ final r = final (setSearchResults [] s).
Proof. repeat split; reflexivity. Qed.

Section SearchResults.
Import Api Search.

Lemma keep_true item :
  keep item = true ->
  Js.truthy (primaryImage item) = true /\ Js.truthy (isPublicDomain item) = true.
Proof.
  unfold keep, Js.and_.
  destruct (Js.truthy (primaryImage item)) eqn:Hi; [done|].
  rewrite Hi. done.
Qed.

Lemma truthy_string_nonempty v url :
  Js.truthy v = true -> v = Js.JStr url -> url <> ""%string.
Proof. intros Ht -> ->. done. Qed.

Lemma truthy_bool_true v b : Js.truthy v = true -> v = Js.JBool b -> b = true.
Proof. by intros Ht ->. Qed.

Lemma searchArtworks_empty srv s :
  searchArtworks srv "" s = setSearchResults [] s.
Proof. reflexivity. Qed.

End SearchResults.

(** C10: every element of [searchResults] is the formatting of a record that
    was fetched for one of the requested identifiers and whose [primaryImage]
    and [isPublicDomain] are both truthy: a non-empty image address and the
    flag [true]; records lacking either never reach the list. *)
Theorem searchResults_have_image_and_public_domain
  (srv : Search.Server) (query : string) (s : State) (x : SearchResult.t)
  (Hin : x ∈ searchResults (final (Search.searchArtworks srv query s))) :
  exists data i id item,
    Search.search_reply srv query = Api.Body data
    /\ Search.limitedIds data !! i = Some id
    /\ Search.object_reply srv i id = Api.Body item
    /\ x = Search.format_result item
    /\ Js.truthy (Api.primaryImage item) = true
    /\ Js.truthy (Api.isPublicDomain item) = true
    /\ (forall url, Api.primaryImage item = Js.JStr url -> url <> ""%string)
    /\ (forall b, Api.isPublicDomain item = Js.JBool b -> b = true).
Proof.
  destruct (decide (query = ""%string)) as [->|Hq].
  { rewrite searchArtworks_empty in Hin. simpl in Hin. by apply elem_of_nil in Hin. }
  destruct (searchArtworks_nonempty srv query s Hq)
    as [f Hreply | data f Hreply Hall | data details Hreply Hall];
    cbn [final setSearchResults update searchResults] in Hin;
    try by apply elem_of_nil in Hin.
  apply list_elem_of_fmap in Hin as (item & -> & Hitem).
  apply list_elem_of_In, List.filter_In in Hitem as [Hitem Hkeep].
  apply list_elem_of_In, list_elem_of_lookup in Hitem as [i Hi].
  pose proof (promise_all_lookup _ _ _ _ Hall Hi) as Hreply_i.
  rewrite list_lookup_imap in Hreply_i.
  destruct (Search.limitedIds data !! i) as [id|] eqn:Hid; [|done].
  injection Hreply_i as Hreply_i.
  destruct (keep_true item Hkeep) as [Himg Hpd].
  exists data, i, id, item. repeat split; try done.
  - intros url. by apply truthy_string_nonempty.
  - intros b. by apply truthy_bool_true.
Qed.

Lemma searchResults_have_image_and_public_domain_witness :
  exists item,
    Search.format_result (sample_item 5) = Search.format_result item
    /\ Js.truthy (Api.primaryImage item) = true
    /\ Js.truthy (Api.isPublicDomain item) = true.
Proof.
  destruct (searchResults_have_image_and_public_domain
              sample_server "monet" initial (Search.format_result (sample_item 5))
              ltac:(vm_compute; apply list_elem_of_In; right; left; reflexivity))
    as (data & i & id & item & _ & _ & _ & Hx & Himg & Hpd & _).
  exists item. split; [exact Hx | split; [exact Himg | exact Hpd]].
Defined.

(** ** Failing requests *)

(** C7: a rejected request never escapes either function.  In
    [fetchDailyArtwork] it is logged and nothing else happens but the end of
    loading: no new request, no timer, artwork and game state untouched, and
    the request is no longer in flight.  In [searchArtworks] it is logged
    last, [searchResults] becomes the empty list, and artwork and game state
    are untouched. *)
Theorem request_errors_are_logged_not_raised :
  (forall now f s,
      let r := Fetcher.fetchDailyArtwork_resume now (Api.Failed f) s in
      outcome r = inl tt
      /\ emitted r = [ConsoleError "Error fetching artwork:" f]
      /\ artwork (final r) = artwork s
      /\ gameState (final r) = gameState s
      /\ final r = final (setIsLoading false s))
  /\ (forall w now f,
         App.inflight (App.step w (App.DailyResponse now (Api.Failed f)))
         = (App.inflight w - 1)%nat)
  /\ (forall srv query s,
         query <> ""%string ->
         search_fails srv query ->
         let r := Search.searchArtworks srv query s in
         outcome r = inl tt
         /\ (exists f, last (emitted r) = Some (ConsoleError "Error searching artworks:" f))
         /\ searchResults (final r) = []
         /\ artwork (final r) = artwork s
         /\ gameState (final r) = gameState s).
Proof.
  split; [|split].
  - intros now f s. repeat split; reflexivity.
  - intros w now f. unfold App.step, App.handler, Fetcher.fetchDailyArtwork_resume.
    eff_run. cbn. lia.
  - intros srv query s Hq Hfails.
    destruct (searchArtworks_nonempty srv query s Hq)
      as [f Hreply | data f Hreply Hall | data details Hreply Hall];
      cbn [outcome emitted final].
    + repeat split; try reflexivity. by exists f.
    + repeat split; try reflexivity. exists f.
      by rewrite app_comm_cons, last_snoc.
    + exfalso. destruct Hfails as [[f Hf] | (data' & i & id & f & Hdata & Hid & Hf)];
        [congruence|].
      rewrite Hreply in Hdata. injection Hdata as <-.
      destruct (promise_all_failed (imap (Search.object_reply srv) (Search.limitedIds data)) i f)
        as [f' Hrej]; [|congruence].
      rewrite list_lookup_imap, Hid. simpl. by rewrite Hf.
Qed.

Example search_offline :
  let r := Search.searchArtworks sample_server "offline" initial in
  emitted r
  = [Fetch (Api.GetSearch "offline");
     ConsoleError "Error searching artworks:" Api.NetworkError]
  /\ searchResults (final r) = [].
Proof. split; reflexivity. Qed.

Example search_broken_detail :
  let r := Search.searchArtworks sample_server "broken" initial in
  emitted r
  = [Fetch (Api.GetSearch "broken");
     Fetch (Api.GetObject 1); Fetch (Api.GetObject 9); Fetch (Api.GetObject 5);
     ConsoleError "Error searching artworks:" Api.ParseError]
  /\ searchResults (final r) = [].
Proof. split; reflexivity. Qed.

(** ** Guessing, skipping and the resolution *)

Section Handlers.
Import Api.

(** A guess against a loaded artwork whose identifier matches. *)
Lemma handleGuess_match s a sel :
  artwork s = Some a ->
  SearchResult.id sel = Artwork.id a ->
  Game.handleGuess s sel s
  = {| outcome := inl tt;
       final := {| artwork := artwork s; dotsWide := dotsWide s;
                   isLoading := isLoading s; open := false; searchValue := "";
                   gameState := "won"; searchResults := [] |};
       emitted := [] |}.
Proof.
  intros Hart Hid.
  unfold Game.handleGuess, Game.deref, Game.processImage, Js.strict_eq.
  rewrite Hart. eff_run. rewrite bool_decide_eq_true_2 by done. by rewrite Hart.
Qed.

(** A guess against a loaded artwork whose identifier differs. *)
Lemma handleGuess_mismatch s a sel :
  artwork s = Some a ->
  SearchResult.id sel <> Artwork.id a ->
  Game.handleGuess s sel s
  = {| outcome := inl tt;
       final := {| artwork := artwork s; dotsWide := dotsWide s + 10;
                   isLoading := isLoading s; open := false; searchValue := "";
                   gameState := gameState s; searchResults := [] |};
       emitted := [ProcessImage (Artwork.image a) (dotsWide s)] |}.
Proof.
  intros Hart Hid.
  unfold Game.handleGuess, Game.deref, Game.processImage, Js.strict_eq.
  rewrite Hart. eff_run. rewrite bool_decide_eq_false_2 by done. by rewrite Hart.
Qed.

(** A guess while no artwork is loaded: reading [artwork.id] throws before
    any update is queued. *)
Lemma handleGuess_no_artwork s sel :
  artwork s = None ->
  Game.handleGuess s sel s = {| outcome := inr TypeError; final := s; emitted := [] |}.
Proof. intros Hart. unfold Game.handleGuess, Game.deref. rewrite Hart. reflexivity. Qed.

(** A skip queues its update before it reads [artwork.image]. *)
Lemma handleSkip_final s :
  final (Game.handleSkip s s)
  = {| artwork := artwork s; dotsWide := dotsWide s + 10;
       isLoading := isLoading s; open := open s; searchValue := searchValue s;
       gameState := gameState s; searchResults := searchResults s |}.
Proof.
  unfold Game.handleSkip, Game.deref, Game.processImage.
  destruct (artwork s) as [a|] eqn:Hart; eff_run; by rewrite Hart.
Qed.

Lemma handleSkip_emitted s :
  emitted (Game.handleSkip s s)
  = match artwork s with
    | Some a => [ProcessImage (Artwork.image a) (dotsWide s)]
    | None => []
    end.
Proof.
  unfold Game.handleSkip, Game.deref, Game.processImage.
  by destruct (artwork s) as [a|] eqn:Hart.
Qed.

Lemma searchArtworks_frame srv query s :
  let r := Search.searchArtworks srv query s in
  artwork (final r) = artwork s
  /\ dotsWide (final r) = dotsWide s
  /\ isLoading (final r) = isLoading s
  /\ gameState (final r) = gameState s.
Proof.
  destruct (decide (query = ""%string)) as [->|Hq]; [done|].
  by destruct (searchArtworks_nonempty srv query s Hq).
Qed.

Lemma resume_frame now resp s :
  let r := Fetcher.fetchDailyArtwork_resume now resp s in
  dotsWide (final r) = dotsWide s
  /\ gameState (final r) = gameState s
  /\ isLoading (final r) = false.
Proof.
  unfold Fetcher.fetchDailyArtwork_resume.
  destruct resp as [f|data]; [done|].
  by destruct (Fetcher.eligible data).
Qed.

(** How one step can change the game state and the resolution. *)
Lemma step_frame w a :
  let w' := App.step w a in
  (gameState (App.ui w') = gameState (App.ui w)
   \/ gameState (App.ui w') = "won"%string
      /\ exists sel art,
          a = App.Guess sel /\ artwork (App.ui w) = Some art
          /\ SearchResult.id sel = Artwork.id art)
  /\ (dotsWide (App.ui w') = dotsWide (App.ui w)
      \/ dotsWide (App.ui w') = dotsWide (App.ui w) + 10
         /\ (a = App.Skip \/ exists sel, a = App.Guess sel)).
Proof.
  unfold App.step. cbn [App.ui]. set (s := App.ui w).
  destruct a as [now resp | srv query | v | b | sel |]; cbn [App.handler].
  - destruct (resume_frame now resp s) as (-> & -> & _). auto.
  - destruct (searchArtworks_frame srv query s) as (_ & -> & _ & ->). auto.
  - auto.
  - auto.
  - destruct (artwork s) as [art|] eqn:Hart.
    + destruct (decide (SearchResult.id sel = Artwork.id art)) as [Hid|Hid].
      * rewrite (handleGuess_match s art sel Hart Hid). cbn [final gameState dotsWide].
        split; [right; split; [done|]; by exists sel, art | by left].
      * rewrite (handleGuess_mismatch s art sel Hart Hid). cbn [final gameState dotsWide].
        split; [by left | right; split; [done|]; right; by exists sel].
    + rewrite (handleGuess_no_artwork s sel Hart). auto.
  - rewrite handleSkip_final. cbn [gameState dotsWide]. auto.
Qed.

End Handlers.

Section Resolution.

Lemma loaded_reachable : App.reachable loaded.
Proof. apply App.reach_step; [constructor|]. simpl. lia. Qed.

Lemma step_skip_ui w :
  App.ui (App.step w App.Skip)
  = {| artwork := artwork (App.ui w); dotsWide := dotsWide (App.ui w) + 10;
       isLoading := isLoading (App.ui w); open := open (App.ui w);
       searchValue := searchValue (App.ui w); gameState := gameState (App.ui w);
       searchResults := searchResults (App.ui w) |}.
Proof. unfold App.step. cbn [App.ui App.handler]. apply handleSkip_final. Qed.

Lemma dotsWide_step_le w a : dotsWide (App.ui w) <= dotsWide (App.ui (App.step w a)).
Proof. destruct (step_frame w a) as [_ [-> | [-> _]]]; lia. Qed.

Lemma dotsWide_run_le acts : forall w,
  dotsWide (App.ui w) <= dotsWide (App.ui (App.run w acts)).
Proof.
  induction acts as [|a acts IH]; intros w; simpl; [lia|].
  pose proof (dotsWide_step_le w a). pose proof (IH (App.step w a)).
  unfold App.run in *. lia.
Qed.

Lemma dotsWide_reachable w : App.reachable w -> 10 <= dotsWide (App.ui w).
Proof.
  induction 1 as [now | w a _ IH _].
  - reflexivity.
  - pose proof (dotsWide_step_le w a). lia.
Qed.

(** Skipping [n] times from a playable state. *)
Lemma skips_reachable n : forall w,
  App.reachable w ->
  isLoading (App.ui w) = false ->
  gameState (App.ui w) = "playing"%string ->
  let w' := App.run w (replicate n App.Skip) in
  App.reachable w'
  /\ isLoading (App.ui w') = false
  /\ gameState (App.ui w') = "playing"%string
  /\ dotsWide (App.ui w') = dotsWide (App.ui w) + 10 * Z.of_nat n.
Proof.
  induction n as [|n IH]; intros w Hreach Hload Hplay.
  - simpl. repeat split; try done. lia.
  - destruct (IH (App.step w App.Skip)) as (Hr & Hl & Hp & Hd).
    + by apply App.reach_step.
    + by rewrite step_skip_ui.
    + by rewrite step_skip_ui.
    + cbn zeta in *. change (App.run w (replicate (S n) App.Skip))
        with (App.run (App.step w App.Skip) (replicate n App.Skip)).
      repeat split; try done.
      rewrite Hd, step_skip_ui. cbn [dotsWide]. lia.
Qed.

End Resolution.

(** X20: in every reachable state [dotsWide] is positive (at least its
    initial value 10); no step ever lowers it, so it never decreases over a
    session; every skip raises it by exactly 10, and so does every guess
    made while an artwork is loaded whose identifier differs from that
    artwork's; and nothing stops the climb: for every [n] the game can still
    be in play at resolution [10 + 10 n]. *)
Theorem dotsWide_only_grows :
  (forall w, App.reachable w -> 0 < dotsWide (App.ui w))
  /\ (forall w a, dotsWide (App.ui w) <= dotsWide (App.ui (App.step w a)))
  /\ (forall w acts, dotsWide (App.ui w) <= dotsWide (App.ui (App.run w acts)))
  /\ (forall w, dotsWide (App.ui (App.step w App.Skip)) = dotsWide (App.ui w) + 10)
  /\ (forall w art sel,
         artwork (App.ui w) = Some art ->
         SearchResult.id sel <> Artwork.id art ->
         dotsWide (App.ui (App.step w (App.Guess sel))) = dotsWide (App.ui w) + 10)
  /\ (forall n : nat,
         exists w,
           App.reachable w
           /\ isLoading (App.ui w) = false
           /\ gameState (App.ui w) = "playing"%string
           /\ dotsWide (App.ui w) = 10 + 10 * Z.of_nat n).
Proof.
  repeat apply conj.
  - intros w Hreach. pose proof (dotsWide_reachable w Hreach). lia.
  - apply dotsWide_step_le.
  - intros w acts. apply dotsWide_run_le.
  - intros w. by rewrite step_skip_ui.
  - intros w art sel Hart Hid. unfold App.step. cbn [App.ui App.handler].
    by rewrite (handleGuess_mismatch _ art sel Hart Hid).
  - intros n. exists (App.run loaded (replicate n App.Skip)).
    by destruct (skips_reachable n loaded loaded_reachable eq_refl eq_refl)
      as (Hr & Hl & Hp & Hd).
Qed.

Example three_skips :
  dotsWide (App.ui (App.run loaded [App.Skip; App.Skip; App.Skip])) = 40
  /\ gameState (App.ui (App.run loaded [App.Skip; App.Skip; App.Skip])) = "playing"%string.
Proof. split; reflexivity. Qed.

(** X21: for every search result selected while an artwork is loaded and
    the game is in play, [handleGuess] sets the game state to won exactly
    when the selected identifier equals the artwork's.  Otherwise the state
    stays playing, [dotsWide] grows by 10, the renderer is called at once
    (with the resolution of the current render) and again by the effect at
    the new resolution, and guessing and skipping stay available. *)
Theorem handleGuess_wins_iff_same_id
  (w : App.World) (art : Artwork.t) (sel : SearchResult.t)
  (Hart : artwork (App.ui w) = Some art)
  (Hen : App.enabled w (App.Guess sel)) :
  let w' := App.step w (App.Guess sel) in
  (gameState (App.ui w') = "won"%string <-> SearchResult.id sel = Artwork.id art)
  /\ (SearchResult.id sel <> Artwork.id art ->
      gameState (App.ui w') = "playing"%string
      /\ dotsWide (App.ui w') = dotsWide (App.ui w) + 10
      /\ (exists rest,
             App.trace w'
             = App.trace w ++ ProcessImage (Artwork.image art) (dotsWide (App.ui w)) :: rest)
      /\ (Js.truthy (Artwork.image art) = true ->
          ProcessImage (Artwork.image art) (dotsWide (App.ui w) + 10) ∈ App.trace w')
      /\ App.enabled w' App.Skip
      /\ forall sel', App.enabled w' (App.Guess sel')).
Proof.
  destruct Hen as [Hload Hplay]. cbn zeta.
  unfold App.step. cbn [App.ui App.trace App.handler].
  destruct (decide (SearchResult.id sel = Artwork.id art)) as [Hid|Hid].
  - rewrite (handleGuess_match _ art sel Hart Hid). cbn [final gameState].
    split; [done|]. intros Hne. by destruct Hne.
  - rewrite (handleGuess_mismatch _ art sel Hart Hid).
    cbn [final emitted gameState dotsWide].
    split.
    { rewrite Hplay. split; [done|]. intros Heq. by destruct Hid. }
    intros _. split; [done|]. split; [done|]. split; [by eexists|].
    split; [|by split].
    intros Himg. unfold Game.effects. cbn [artwork dotsWide searchValue].
    rewrite Hart, Himg.
    destruct (decide (Some art = Some art /\ dotsWide (App.ui w) = dotsWide (App.ui w) + 10))
      as [[_ Hbad]|_]; [lia|].
    rewrite !elem_of_app. right. right. left. apply list_elem_of_here.
Qed.

Lemma handleGuess_wins_iff_same_id_witness :
  let wrong := Search.format_result (sample_item 1) in
  let right := Search.format_result (sample_item 5) in
  gameState (App.ui (App.step loaded (App.Guess wrong))) = "playing"%string
  /\ dotsWide (App.ui (App.step loaded (App.Guess wrong))) = 20
  /\ gameState (App.ui (App.step loaded (App.Guess right))) = "won"%string.
Proof.
  pose (wrong := Search.format_result (sample_item 1)).
  pose (right := Search.format_result (sample_item 5)).
  destruct (handleGuess_wins_iff_same_id loaded (Fetcher.artwork_of (sample_item 5)) wrong
              eq_refl (conj eq_refl eq_refl)) as [_ Hwrong].
  destruct (Hwrong ltac:(discriminate)) as (Hplay & Hdots & _).
  destruct (handleGuess_wins_iff_same_id loaded (Fetcher.artwork_of (sample_item 5)) right
              eq_refl (conj eq_refl eq_refl)) as [[_ Hwon] _].
  split; [exact Hplay|]. split; [exact Hdots|]. exact (Hwon eq_refl).
Defined.

Section GameState.

Lemma gameState_reachable w :
  App.reachable w ->
  gameState (App.ui w) = "playing"%string \/ gameState (App.ui w) = "won"%string.
Proof.
  induction 1 as [now | w a _ IH _].
  - by left.
  - destruct (step_frame w a) as [[-> | [-> _]] _]; auto.
Qed.

End GameState.

(** C8: the game state starts as playing; in every reachable state it is
    playing or won, never lost; and the only step that changes it is a guess
    whose identifier equals the loaded artwork's, which takes it from playing
    to won. *)
Theorem gameState_playing_or_won :
  gameState initial = "playing"%string
  /\ (forall now, gameState (App.ui (App.mount now)) = "playing"%string)
  /\ (forall w,
         App.reachable w ->
         gameState (App.ui w) = "playing"%string \/ gameState (App.ui w) = "won"%string)
  /\ (forall w, App.reachable w -> gameState (App.ui w) <> "lost"%string)
  /\ (forall w a,
         App.reachable w ->
         gameState (App.ui (App.step w a)) <> gameState (App.ui w) ->
         gameState (App.ui w) = "playing"%string
         /\ gameState (App.ui (App.step w a)) = "won"%string
         /\ exists sel art,
             a = App.Guess sel /\ artwork (App.ui w) = Some art
             /\ SearchResult.id sel = Artwork.id art).
Proof.
  repeat apply conj.
  - reflexivity.
  - reflexivity.
  - apply gameState_reachable.
  - intros w Hreach. by destruct (gameState_reachable w Hreach) as [-> | ->].
  - intros w a Hreach Hchange.
    destruct (step_frame w a) as [[Hsame | [Hwon Hguess]] _]; [done|].
    destruct (gameState_reachable w Hreach) as [Hplay | Hw]; [done|].
    congruence.
Qed.

Example correct_guess_wins :
  gameState (App.ui (App.step loaded (App.Guess (Search.format_result (sample_item 5)))))
  = "won"%string.
Proof. reflexivity. Qed.

Example onload_sample :
  let c := Renderer.onload Renderer.sample_image 10 in
  Renderer.canvas_width c = 10%nat /\ Renderer.canvas_height c = 8%nat
  /\ Renderer.output_width c = 200 /\ Renderer.output_height c = 160
  /\ length (Renderer.drawn c) = 81%nat
  /\ Renderer.drawn c !! 24%nat
     = Some (Renderer.FillArc (Some 3) (Some 2) (Some 10) 70 50 (Renderer.number 8)).
Proof. vm_compute. repeat split. Qed.

(** Binary64 arithmetic decides the height: a 20 by 23 image at 50 dots is
    57 rows high, although 50 * 23 / 20 is exactly 57.5. *)
Example height_is_binary64 :
  Renderer.unsigned_long
    (Renderer.Math_round
       (Renderer.number 50 * (Renderer.number 23 / Renderer.number 20))%float)
  = 57%nat.
Proof. vm_compute. reflexivity. Qed.

Section Grid.

(** Looking up position [i * n + j] in a concatenation of chunks that all
    have length [n]. *)
Lemma lookup_bind_uniform {A B} (g : A -> list B) (n : nat) (l : list A) (i j : nat) :
  (forall a, length (g a) = n) ->
  (j < n)%nat ->
  (l ≫= g) !! (i * n + j)%nat = l !! i ≫= fun a => g a !! j.
Proof.
  intros Hlen Hj. revert i. induction l as [|a l IH]; intros i.
  - by rewrite lookup_nil.
  - change ((a :: l) ≫= g) with (g a ++ (l ≫= g)).
    destruct i as [|i].
    + simpl. rewrite lookup_app_l by (rewrite Hlen; lia). done.
    + rewrite lookup_app_r by (rewrite Hlen; lia).
      rewrite Hlen. replace (S i * n + j - n)%nat with (i * n + j)%nat by lia.
      apply IH.
Qed.

Lemma length_bind_uniform {A B} (g : A -> list B) (n : nat) (l : list A) :
  (forall a, length (g a) = n) -> length (l ≫= g) = (length l * n)%nat.
Proof.
  intros Hlen. induction l as [|a l IH]; [done|].
  change ((a :: l) ≫= g) with (g a ++ (l ≫= g)).
  rewrite length_app, Hlen, IH. simpl. lia.
Qed.

Lemma bind_ext_in {A B} (f g : A -> list B) (l : list A) :
  (forall a, a ∈ l -> f a = g a) -> l ≫= f = l ≫= g.
Proof.
  induction l as [|a l IH]; intros Hext; [done|].
  change (f a ++ (l ≫= f) = g a ++ (l ≫= g)).
  rewrite Hext by apply list_elem_of_here.
  rewrite IH; [done|]. intros b Hb. apply Hext. by apply list_elem_of_further.
Qed.

(** A row-major grid with [k] entries per cell. *)
Lemma lookup_grid {B} (cell : nat -> nat -> list B) (k w h x y j : nat) :
  (forall x y, length (cell x y) = k) ->
  (x < w)%nat -> (y < h)%nat -> (j < k)%nat ->
  (seq 0 h ≫= fun y => seq 0 w ≫= fun x => cell x y) !! ((y * w + x) * k + j)%nat
  = cell x y !! j.
Proof.
  intros Hk Hx Hy Hj.
  replace ((y * w + x) * k + j)%nat with (y * (w * k) + (x * k + j))%nat by lia.
  rewrite (lookup_bind_uniform _ (w * k)).
  - rewrite lookup_seq_lt by done. cbn [mbind option_bind]. simpl "+".
    rewrite (lookup_bind_uniform _ k) by done.
    by rewrite lookup_seq_lt.
  - intros y'. rewrite (length_bind_uniform _ k) by done. by rewrite length_seq.
  - assert (x * k + j < x * k + k)%nat by lia. nia.
Qed.

Lemma length_grid {B} (cell : nat -> nat -> list B) (k w h : nat) :
  (forall x y, length (cell x y) = k) ->
  length (seq 0 h ≫= fun y => seq 0 w ≫= fun x => cell x y) = (h * (w * k))%nat.
Proof.
  intros Hk. rewrite (length_bind_uniform _ (w * k)).
  - by rewrite length_seq.
  - intros y. rewrite (length_bind_uniform _ k) by done. by rewrite length_seq.
Qed.

End Grid.

Section Dots.
Import Renderer.

Lemma radius_is_8 : (number scale / number 2 * point_eight)%float = number 8.
Proof. vm_compute. reflexivity. Qed.

(** The bytes read for cell [(x, y)] are the sample of that cell. *)
Lemma getImageData_cell img w h x y j :
  (x < w)%nat -> (y < h)%nat -> (j < 4)%nat ->
  getImageData img w h !! ((y * w + x) * 4 + j)%nat
  = (let p := scaled img w h x y in [red p; green p; blue p; alpha p]) !! j.
Proof.
  intros Hx Hy Hj. unfold getImageData.
  by rewrite (lookup_grid
                (fun x y => let p := scaled img w h x y in
                            [red p; green p; blue p; alpha p]) 4).
Qed.

Lemma loop_dots_spec img cw ch :
  loop_dots img cw ch = (y ← seq 0 ch; x ← seq 0 cw; [dot_of img cw ch x y]).
Proof.
  unfold loop_dots. cbn zeta.
  apply bind_ext_in. intros y Hy. apply elem_of_seq in Hy.
  apply bind_ext_in. intros x Hx. apply elem_of_seq in Hx.
  pose proof (getImageData_cell img cw ch x y 0) as H0.
  pose proof (getImageData_cell img cw ch x y 1) as H1.
  pose proof (getImageData_cell img cw ch x y 2) as H2.
  rewrite Nat.add_0_r in H0.
  rewrite H0, H1, H2 by lia.
  rewrite radius_is_8. reflexivity.
Qed.

Lemma grid_dots_length img w h :
  length (y ← seq 0 h; x ← seq 0 w; [dot_of img w h x y]) = (h * w)%nat.
Proof.
  rewrite (length_grid (fun x y => [dot_of img w h x y]) 1) by done. lia.
Qed.

Lemma grid_dots_lookup img w h x y :
  (x < w)%nat -> (y < h)%nat ->
  (y ← seq 0 h; x ← seq 0 w; [dot_of img w h x y]) !! (y * w + x)%nat
  = Some (dot_of img w h x y).
Proof.
  intros Hx Hy.
  pose proof (lookup_grid (fun x y => [dot_of img w h x y]) 1 w h x y 0) as H.
  rewrite Nat.mul_1_r, Nat.add_0_r in H. apply H; [done|done|done|lia].
Qed.

(** A dot centred in the square of cell [(x, y)] sits at position
    [y * w + x] and nowhere else. *)
Lemma grid_dots_unique img w h x y i d :
  (x < w)%nat -> (y < h)%nat ->
  (y ← seq 0 h; x ← seq 0 w; [dot_of img w h x y]) !! i = Some d ->
  centre d = Some (Z.of_nat x * 20 + 10, Z.of_nat y * 20 + 10) ->
  i = (y * w + x)%nat.
Proof.
  intros Hx Hy Hi Hc.
  pose proof (lookup_lt_Some _ _ _ Hi) as Hlt. rewrite grid_dots_length in Hlt.
  assert (i mod w < w)%nat as Hx' by (apply Nat.mod_upper_bound; lia).
  assert (i / w < h)%nat as Hy' by (apply Nat.Div0.div_lt_upper_bound; lia).
  pose proof (Nat.div_mod_eq i w) as Hdm.
  pose proof (grid_dots_lookup img w h (i mod w) (i / w) Hx' Hy') as Hd.
  replace (i / w * w + i mod w)%nat with i in Hd by lia.
  rewrite Hi in Hd. injection Hd as ->.
  simpl in Hc. injection Hc as Hcx Hcy. nia.
Qed.

End Dots.

(** C5: for a positive [dotsWide] that a canvas accepts as a width,
    [processImage] makes the hidden canvas
    [dotsWide] wide and [Math.round(dotsWide * aspectRatio)] high, makes the
    visible canvas 20 times as large each way, and, after clearing it, draws
    for every cell [(x, y)] of the grid, row by row, exactly one filled
    circle of radius 20/2 * 0.8 = 8 centred at [(20 x + 10, 20 y + 10)] in
    the colour of that cell's sample. *)
Theorem processImage_draws_one_dot_per_cell
  (img : Renderer.Image) (dotsWide : Z) (Hpos : 0 < dotsWide <= 2147483647) :
  let c := Renderer.onload img dotsWide in
  let w := Renderer.canvas_width c in
  let h := Renderer.canvas_height c in
  Z.of_nat w = dotsWide
  /\ h = Renderer.unsigned_long
           (Renderer.Math_round
              (Renderer.number dotsWide
               * (Renderer.number (Renderer.height img)
                  / Renderer.number (Renderer.width img)))%float)
  /\ Renderer.output_width c = Z.of_nat w * 20
  /\ Renderer.output_height c = Z.of_nat h * 20
  /\ (Renderer.number 20 / Renderer.number 2 * Renderer.point_eight)%float
     = Renderer.number 8
  /\ Renderer.completed c = negb (h =? 0)%nat
  /\ (h <> 0%nat ->
      Renderer.drawn c
      = Renderer.FillRect "white" 0 0 (Renderer.output_width c) (Renderer.output_height c)
          :: (y ← seq 0 h; x ← seq 0 w; [Renderer.dot_of img w h x y])
      /\ length (tail (Renderer.drawn c)) = (h * w)%nat
      /\ forall x y,
          (x < w)%nat -> (y < h)%nat ->
          tail (Renderer.drawn c) !! (y * w + x)%nat = Some (Renderer.dot_of img w h x y)
          /\ forall i d,
              tail (Renderer.drawn c) !! i = Some d ->
              Renderer.centre d = Some (Z.of_nat x * 20 + 10, Z.of_nat y * 20 + 10) ->
              i = (y * w + x)%nat).
Proof.
  cbn zeta. unfold Renderer.onload. cbn zeta.
  set (ch := Renderer.unsigned_long (Renderer.Math_round _)).
  assert (Hcw : Renderer.unsigned_long (Some dotsWide) = Z.to_nat dotsWide) by done.
  rewrite Hcw. set (cw := Z.to_nat dotsWide).
  assert (Hw : (cw =? 0)%nat = false) by (apply Nat.eqb_neq; lia).
  rewrite Hw. cbn [orb].
  destruct (ch =? 0)%nat eqn:Hh;
    cbn [Renderer.canvas_width Renderer.canvas_height Renderer.output_width
         Renderer.output_height Renderer.drawn Renderer.completed].
  - apply Nat.eqb_eq in Hh. rewrite Hh.
    repeat split; try done; try (unfold Renderer.scale; lia).
  - rewrite Hh. apply Nat.eqb_neq in Hh.
    repeat split; try done; try (unfold Renderer.scale; lia);
      try apply radius_is_8; rewrite ?loop_dots_spec; cbn [tail].
    + done.
    + apply grid_dots_length.
    + by apply grid_dots_lookup.
    + intros i d Hi Hc. by apply (grid_dots_unique img cw ch x y i d).
Qed.

Lemma processImage_draws_one_dot_per_cell_witness :
  let c := Renderer.onload Renderer.sample_image 10 in
  Renderer.canvas_width c = 10%nat
  /\ Renderer.canvas_height c = 8%nat
  /\ length (tail (Renderer.drawn c)) = 80%nat
  /\ tail (Renderer.drawn c) !! 23%nat
     = Some (Renderer.FillArc (Some 3) (Some 2) (Some 10) 70 50 (Renderer.number 8)).
Proof.
  destruct (processImage_draws_one_dot_per_cell Renderer.sample_image 10 ltac:(lia))
    as (_ & _ & _ & _ & _ & _ & Hdots).
  destruct (Hdots ltac:(vm_compute; discriminate)) as (_ & Hlen & Hcell).
  destruct (Hcell 3%nat 2%nat ltac:(vm_compute; lia) ltac:(vm_compute; lia)) as [Hdot _].
  split; [vm_compute; reflexivity|]. split; [vm_compute; reflexivity|].
  split; [exact Hlen | exact Hdot].
Defined.

(** * Further properties of the component *)

(** ** The daily fetch: loading and settling *)

Section Loading.
Import Api.

Lemma eligible_true (data : ObjectData) :
  Fetcher.eligible data = true ->
  Js.truthy (primaryImage data) = true
  /\ Js.truthy (title data) = true
  /\ Js.truthy (artistDisplayName data) = true
  /\ Js.truthy (isPublicDomain data) = true.
Proof.
  unfold Fetcher.eligible, Js.and_.
  destruct (Js.truthy (primaryImage data)) eqn:Hi;
    destruct (Js.truthy (title data)) eqn:Ht;
    destruct (Js.truthy (artistDisplayName data)) eqn:Ha;
    destruct (Js.truthy (isPublicDomain data)) eqn:Hp;
    rewrite ?Hi, ?Ht, ?Ha, ?Hp; intuition congruence.
Qed.

Lemma resume_eligible now data s :
  Fetcher.eligible data = true ->
  Fetcher.fetchDailyArtwork_resume now (Body data) s
  = {| outcome := inl tt;
       final := {| artwork := Some (Fetcher.artwork_of data); dotsWide := dotsWide s;
                   isLoading := false; open := open s; searchValue := searchValue s;
                   gameState := gameState s; searchResults := searchResults s |};
       emitted := [] |}.
Proof.
  intros Hok. unfold Fetcher.fetchDailyArtwork_resume. rewrite Hok. reflexivity.
Qed.

Lemma resume_failed now f s :
  Fetcher.fetchDailyArtwork_resume now (Failed f) s
  = {| outcome := inl tt;
       final := {| artwork := artwork s; dotsWide := dotsWide s;
                   isLoading := false; open := open s; searchValue := searchValue s;
                   gameState := gameState s; searchResults := searchResults s |};
       emitted := [ConsoleError "Error fetching artwork:" f] |}.
Proof. reflexivity. Qed.

Lemma step_inflight_other w a :
  (forall now resp, a <> App.DailyResponse now resp) ->
  App.inflight (App.step w a) = App.inflight w.
Proof. intros Hne. destruct a; try done. by destruct (Hne now resp). Qed.

Lemma step_artwork_other w a :
  (forall now resp, a <> App.DailyResponse now resp) ->
  artwork (App.ui (App.step w a)) = artwork (App.ui w).
Proof.
  intros Hne. unfold App.step. cbn [App.ui].
  destruct a as [now resp | srv query | v | b | sel |]; cbn [App.handler].
  - by destruct (Hne now resp).
  - by destruct (searchArtworks_frame srv query (App.ui w)) as (-> & _).
  - done.
  - done.
  - destruct (artwork (App.ui w)) as [art|] eqn:Hart.
    + destruct (decide (SearchResult.id sel = Artwork.id art)) as [Hid|Hid].
      * by rewrite (handleGuess_match _ art sel Hart Hid).
      * by rewrite (handleGuess_mismatch _ art sel Hart Hid).
    + by rewrite (handleGuess_no_artwork _ sel Hart).
  - by rewrite handleSkip_final.
Qed.

Lemma reachable_settled w : App.reachable w -> settled_invariant w.
Proof.
  induction 1 as [now | w a Hreach (Hle & Hzero & Hwon & Htruthy) Hen].
  - repeat split; try done; simpl; intros [a Ha]; done.
  - assert (Hcase : (exists now resp, a = App.DailyResponse now resp)
                    \/ (forall now resp, a <> App.DailyResponse now resp)).
    { destruct a; eauto; right; done. }
    destruct Hcase as [(now & resp & ->) | Hne].
    + cbn [App.enabled] in Hen.
      assert (Hnone : artwork (App.ui w) = None).
      { destruct (artwork (App.ui w)) eqn:Hart; [|done].
        rewrite Hzero in Hen by eauto. lia. }
      assert (Hplay : gameState (App.ui w) <> "won"%string).
      { intros Hw. destruct (Hwon Hw) as [a Ha]. congruence. }
      destruct resp as [f | data].
      * unfold settled_invariant, App.step. cbn [App.ui App.inflight App.handler].
        rewrite resume_failed. cbn [final emitted artwork gameState List.filter
                                       App.is_daily_fetch length].
        rewrite Hnone. repeat split; try done; try lia; intros [a Ha]; done.
      * destruct (Fetcher.eligible data) eqn:Hok.
        -- unfold settled_invariant, App.step. cbn [App.ui App.inflight App.handler].
           rewrite (resume_eligible _ _ _ Hok).
           cbn [final emitted artwork gameState List.filter length].
           destruct (eligible_true data Hok) as (Hi & Ht & Ha & _).
           repeat split; try done; try lia; simplify_eq; done.
        -- apply eligible_false_iff in Hok.
           destruct (step_ineligible w now data Hok Hen) as (Hin & _ & Hart & _).
           destruct (resume_ineligible now data (App.ui w) Hok)
             as (_ & _ & _ & _ & _ & _ & Hgs & _).
           cbn zeta in *. unfold settled_invariant. rewrite Hin, Hart.
           repeat split; try done; try lia.
           unfold App.step. cbn [App.ui App.handler]. rewrite Hgs.
           intros Hw. by destruct Hplay.
    + unfold settled_invariant.
      rewrite (step_inflight_other w a Hne), (step_artwork_other w a Hne).
      repeat split; try done; try (by apply Htruthy).
      intros Hw. destruct (step_frame w a) as [[Hsame | [_ (sel & art & _ & Hart & _)]] _].
      * apply Hwon. congruence.
      * eauto.
Qed.

End Loading.

Section Settling.
Import Api.

Lemma step_daily_eligible w now data :
  Fetcher.eligible data = true ->
  artwork (App.ui w) = None ->
  App.step w (App.DailyResponse now (Body data))
  = {| App.ui := {| artwork := Some (Fetcher.artwork_of data);
                    dotsWide := dotsWide (App.ui w); isLoading := false;
                    open := open (App.ui w); searchValue := searchValue (App.ui w);
                    gameState := gameState (App.ui w);
                    searchResults := searchResults (App.ui w) |};
       App.inflight := (App.inflight w - 1)%nat;
       App.trace := App.trace w ++ [ProcessImage (primaryImage data) (dotsWide (App.ui w))] |}.
Proof.
  intros Hok Hnone. destruct (eligible_true data Hok) as (Himg & _).
  unfold App.step. cbn [App.handler]. rewrite (resume_eligible _ _ _ Hok).
  cbn [final emitted List.filter length app]. f_equal; [lia|]. f_equal.
  unfold Game.effects. cbn [artwork dotsWide searchValue].
  rewrite Hnone.
  destruct (decide (None = Some (Fetcher.artwork_of data) /\ _)) as [[? _]|_]; [done|].
  cbn [Fetcher.artwork_of Artwork.image]. rewrite Himg.
  destruct (decide (searchValue (App.ui w) = searchValue (App.ui w))); done.
Qed.

Lemma run_cons w a acts : App.run w (a :: acts) = App.run (App.step w a) acts.
Proof. reflexivity. Qed.

Lemma feasible_reachable acts : forall w,
  App.reachable w -> feasible w acts -> App.reachable (App.run w acts).
Proof.
  induction acts as [|a acts IH]; intros w Hreach Hfeas; [done|].
  destruct Hfeas as [Hen Hrest]. rewrite run_cons.
  apply IH; [by apply App.reach_step | done].
Qed.

(** [searchArtworks] writes [searchResults] and nothing else. *)
Lemma searchArtworks_only_results srv query s :
  exists l, final (Search.searchArtworks srv query s) = final (setSearchResults l s).
Proof.
  destruct (decide (query = ""%string)) as [->|Hq]; [by exists []|].
  destruct (searchArtworks_nonempty srv query s Hq); eauto.
Qed.

End Settling.

(** X1: when a reply passes the eligibility test while no artwork is loaded,
    the artwork is built from the reply's identifier, title, artist, date,
    image and department, loading ends, the request is settled without a new
    one, and the renderer is called once for the reply's image at the
    current resolution. *)
Theorem eligible_reply_loads_the_artwork
  (w : App.World) (now : Daily.Date) (data : Api.ObjectData)
  (Hok : Fetcher.eligible data = true) (Hnone : artwork (App.ui w) = None) :
  let w' := App.step w (App.DailyResponse now (Api.Body data)) in
  artwork (App.ui w')
  = Some {| Artwork.id := Api.objectID data; Artwork.title := Api.title data;
            Artwork.artist := Api.artistDisplayName data;
            Artwork.year := Api.objectDate data;
            Artwork.image := Api.primaryImage data;
            Artwork.department := Api.department data |}
  /\ isLoading (App.ui w') = false
  /\ dotsWide (App.ui w') = dotsWide (App.ui w)
  /\ gameState (App.ui w') = gameState (App.ui w)
  /\ App.inflight w' = (App.inflight w - 1)%nat
  /\ App.trace w'
     = App.trace w ++ [ProcessImage (Api.primaryImage data) (dotsWide (App.ui w))].
Proof. cbn zeta. by rewrite (step_daily_eligible w now data Hok Hnone). Qed.

Lemma eligible_reply_loads_the_artwork_witness :
  artwork (App.ui loaded) = Some (Fetcher.artwork_of (sample_item 5))
  /\ isLoading (App.ui loaded) = false
  /\ App.inflight loaded = 0%nat
  /\ App.trace loaded
     = [Fetch (Api.GetObject 400); SetTimeout 300;
        ProcessImage (Js.JStr "https://images.example/full.jpg") 10].
Proof.
  destruct (eligible_reply_loads_the_artwork (App.mount a_day) a_day (sample_item 5)
              eq_refl eq_refl) as (Hart & Hload & _ & _ & Hin & Htr).
  split; [exact Hart|]. split; [exact Hload|]. split; [exact Hin | exact Htr].
Defined.

(** X2: a rejected reply leaves the component waiting for the retry with
    the loading flag already cleared: in every reachable state, after such a
    reply one request is in flight, no artwork is loaded, and what is
    rendered is the game card with its search and skip controls, not the
    loading card. *)
Theorem retry_runs_behind_the_game_card
  (w : App.World) (now : Daily.Date) (data : Api.ObjectData)
  (Hreach : App.reachable w) (Hin : (0 < App.inflight w)%nat) (Hbad : ineligible data) :
  let w' := App.step w (App.DailyResponse now (Api.Body data)) in
  App.reachable w'
  /\ App.inflight w' = 1%nat
  /\ artwork (App.ui w') = None
  /\ (exists controls,
         View.render (App.ui w')
         = inl (View.GameCard (dotsWide (App.ui w)) (Some controls) None))
  /\ App.enabled w' App.Skip.
Proof.
  cbn zeta.
  destruct (reachable_settled w Hreach) as (Hle & Hzero & Hwon & _).
  destruct (step_ineligible w now data Hbad Hin) as (Hin' & _ & Hart & Hload).
  destruct (resume_ineligible now data (App.ui w) Hbad)
    as (_ & _ & _ & _ & Hdots & Hsv & Hgs & Hres).
  cbn zeta in *.
  assert (Hplay : gameState (App.ui w) = "playing"%string).
  { destruct (gameState_reachable w Hreach) as [Hp | Hw]; [done|].
    destruct (Hwon Hw) as [a Ha]. rewrite Hzero in Hin by eauto. lia. }
  assert (Hplay' : gameState (App.ui (App.step w (App.DailyResponse now (Api.Body data))))
                   = "playing"%string).
  { unfold App.step. cbn [App.ui App.handler]. by rewrite Hgs. }
  assert (Hdots' : dotsWide (App.ui (App.step w (App.DailyResponse now (Api.Body data))))
                   = dotsWide (App.ui w)).
  { unfold App.step. cbn [App.ui App.handler]. by rewrite Hdots. }
  split; [by apply App.reach_step|]. split; [lia|]. split; [done|]. split; [|done].
  unfold View.render. rewrite Hload, Hplay', Hdots'. cbn. eauto.
Qed.

Lemma retry_runs_behind_the_game_card_witness :
  let w' := App.step (App.mount a_day) (App.DailyResponse a_day (Api.Body blank)) in
  App.inflight w' = 1%nat
  /\ isLoading (App.ui w') = false
  /\ artwork (App.ui w') = None.
Proof.
  destruct (retry_runs_behind_the_game_card (App.mount a_day) a_day blank
              (App.reach_mount a_day) ltac:(vm_compute; lia) ltac:(left; reflexivity))
    as (_ & Hin & Hart & _ & [Hload _]).
  split; [exact Hin|]. split; [exact Hload | exact Hart].
Defined.

(** ** The session once an artwork is loaded *)

Section Loaded.

Lemma enabled_not_daily w a :
  App.reachable w ->
  is_Some (artwork (App.ui w)) ->
  App.enabled w a ->
  forall now resp, a <> App.DailyResponse now resp.
Proof.
  intros Hreach Hsome Hen now resp ->.
  destruct (reachable_settled w Hreach) as (_ & Hzero & _).
  cbn [App.enabled] in Hen. rewrite (Hzero Hsome) in Hen. lia.
Qed.

Lemma loaded_run acts : forall w a,
  App.reachable w ->
  artwork (App.ui w) = Some a ->
  feasible w acts ->
  artwork (App.ui (App.run w acts)) = Some a
  /\ App.inflight (App.run w acts) = 0%nat.
Proof.
  induction acts as [|act acts IH]; intros w a Hreach Hart Hfeas.
  - split; [done|]. destruct (reachable_settled w Hreach) as (_ & Hzero & _).
    apply Hzero. eauto.
  - destruct Hfeas as [Hen Hrest]. rewrite run_cons.
    pose proof (enabled_not_daily w act Hreach ltac:(eauto) Hen) as Hne.
    apply IH; [by apply App.reach_step | | done].
    by rewrite (step_artwork_other w act Hne).
Qed.

(** From a won state only a finishing search can still happen, and it
    changes nothing but the result list. *)
Lemma won_step w a :
  App.reachable w ->
  gameState (App.ui w) = "won"%string ->
  App.enabled w a ->
  (exists srv query, a = App.SearchDone srv query)
  /\ exists l, App.ui (App.step w a) = final (setSearchResults l (App.ui w)).
Proof.
  intros Hreach Hwon Hen.
  destruct (reachable_settled w Hreach) as (_ & _ & Hloaded & _).
  pose proof (enabled_not_daily w a Hreach (Hloaded Hwon) Hen) as Hne.
  destruct a as [now resp | srv query | v | b | sel |]; cbn [App.enabled] in Hen.
  - by destruct (Hne now resp).
  - split; [eauto|]. unfold App.step. cbn [App.ui App.handler].
    apply searchArtworks_only_results.
  - destruct Hen as [_ Hplay]. congruence.
  - destruct Hen as [_ Hplay]. congruence.
  - destruct Hen as [_ Hplay]. congruence.
  - destruct Hen as [_ Hplay]. congruence.
Qed.

Lemma won_run acts : forall w,
  App.reachable w ->
  gameState (App.ui w) = "won"%string ->
  feasible w acts ->
  Forall (fun a => Session.is_search_done a = true) acts
  /\ exists l, App.ui (App.run w acts) = final (setSearchResults l (App.ui w)).
Proof.
  induction acts as [|a acts IH]; intros w Hreach Hwon Hfeas.
  - split; [constructor|]. exists (searchResults (App.ui w)).
    change (App.run w []) with w. generalize (App.ui w). by intros [].
  - destruct Hfeas as [Hen Hrest]. rewrite run_cons.
    destruct (won_step w a Hreach Hwon Hen) as [(srv & query & ->) [l Hl]].
    destruct (IH (App.step w (App.SearchDone srv query))) as [Hall [l' Hl']].
    + by apply App.reach_step.
    + by rewrite Hl.
    + done.
    + split; [by constructor|]. exists l'. by rewrite Hl', Hl.
Qed.

End Loaded.

(** X3: once an artwork is loaded it is the artwork for the rest of the
    session: whatever enabled actions follow, [artwork] keeps that value and
    no daily request is in flight any more. *)
Theorem loaded_artwork_is_never_replaced
  (w : App.World) (a : Artwork.t) (acts : list App.action)
  (Hreach : App.reachable w) (Hart : artwork (App.ui w) = Some a)
  (Hfeas : feasible w acts) :
  artwork (App.ui (App.run w acts)) = Some a
  /\ App.inflight (App.run w acts) = 0%nat
  /\ App.reachable (App.run w acts).
Proof.
  destruct (loaded_run acts w a Hreach Hart Hfeas) as [Hkeep Hzero].
  split; [done|]. split; [done|]. by apply feasible_reachable.
Qed.

Lemma loaded_artwork_is_never_replaced_witness :
  let acts := [App.Skip; App.Guess (Search.format_result (sample_item 1));
               App.SearchDone sample_server "monet"; App.Skip] in
  artwork (App.ui (App.run loaded acts)) = Some (Fetcher.artwork_of (sample_item 5))
  /\ App.inflight (App.run loaded acts) = 0%nat.
Proof.
  destruct (loaded_artwork_is_never_replaced loaded (Fetcher.artwork_of (sample_item 5))
              [App.Skip; App.Guess (Search.format_result (sample_item 1));
               App.SearchDone sample_server "monet"; App.Skip]
              loaded_reachable eq_refl ltac:(vm_compute; tauto))
    as (Hkeep & Hzero & _).
  split; [exact Hkeep | exact Hzero].
Defined.

(** X4: winning ends the game for good: from a reachable won state the only
    actions still enabled are searches that finish late, and after any
    number of them every state cell except [searchResults] is what it was,
    so the state stays won and the resolution stops changing. *)
Theorem won_is_final
  (w : App.World) (acts : list App.action)
  (Hreach : App.reachable w) (Hwon : gameState (App.ui w) = "won"%string)
  (Hfeas : feasible w acts) :
  let s := App.ui w in
  let s' := App.ui (App.run w acts) in
  Forall (fun a => exists srv query, a = App.SearchDone srv query) acts
  /\ gameState s' = "won"%string
  /\ dotsWide s' = dotsWide s
  /\ artwork s' = artwork s
  /\ isLoading s' = isLoading s
  /\ open s' = open s
  /\ searchValue s' = searchValue s.
Proof.
  cbn zeta. destruct (won_run acts w Hreach Hwon Hfeas) as [Hall [l ->]].
  split; [|by rewrite <- Hwon].
  eapply Forall_impl; [exact Hall|].
  intros [now resp | srv query | v | b | sel |] Hdone; try done. eauto.
Qed.

Lemma won_is_final_witness :
  let won := App.step loaded (App.Guess (Search.format_result (sample_item 5))) in
  let late := App.run won [App.SearchDone sample_server "monet"] in
  gameState (App.ui late) = "won"%string /\ dotsWide (App.ui late) = 10.
Proof.
  destruct (won_is_final (App.step loaded (App.Guess (Search.format_result (sample_item 5))))
              [App.SearchDone sample_server "monet"]
              ltac:(apply App.reach_step; [exact loaded_reachable | split; reflexivity])
              eq_refl (conj I I))
    as (_ & Hwon & Hdots & _).
  split; [exact Hwon | exact Hdots].
Defined.

(** ** Handlers at the edges *)

Section Edges.

Lemma effects_same s : Game.effects s s = [].
Proof.
  unfold Game.effects.
  destruct (decide (artwork s = artwork s /\ dotsWide s = dotsWide s)) as [_|Hne];
    [|by destruct Hne].
  by destruct (decide (searchValue s = searchValue s)).
Qed.

Lemma dotsWide_reachable_mod w : App.reachable w -> dotsWide (App.ui w) mod 10 = 0.
Proof.
  induction 1 as [now | w a _ IH _]; [done|].
  destruct (step_frame w a) as [_ [-> | [-> _]]]; [done|].
  rewrite <- Z.add_mod_idemp_l, IH by lia. done.
Qed.

End Edges.

(** X5: a guess made while no artwork is loaded (the daily fetch failed or
    is being retried) throws a [TypeError] on [artwork.id] before anything
    is queued: the state, the popover and the result list are untouched and
    nothing is emitted. *)
Theorem guess_without_artwork_changes_nothing
  (w : App.World) (sel : SearchResult.t) (Hnone : artwork (App.ui w) = None) :
  outcome (Game.handleGuess (App.ui w) sel (App.ui w)) = inr TypeError
  /\ App.step w (App.Guess sel) = w.
Proof.
  split; [by rewrite (handleGuess_no_artwork _ sel Hnone)|].
  unfold App.step. cbn [App.handler]. rewrite (handleGuess_no_artwork _ sel Hnone).
  cbn [final emitted app]. rewrite effects_same, app_nil_r. by destruct w.
Qed.

Lemma guess_without_artwork_changes_nothing_witness :
  let w := App.step (App.mount a_day) (App.DailyResponse a_day (Api.Failed Api.NetworkError)) in
  App.enabled w (App.Guess (Search.format_result (sample_item 5)))
  /\ App.step w (App.Guess (Search.format_result (sample_item 5))) = w.
Proof.
  destruct (guess_without_artwork_changes_nothing
              (App.step (App.mount a_day)
                 (App.DailyResponse a_day (Api.Failed Api.NetworkError)))
              (Search.format_result (sample_item 5)) eq_refl) as [_ Hsame].
  split; [split; reflexivity | exact Hsame].
Defined.

(** X6: a skip queues its update before it reads [artwork.image].  With an
    artwork loaded the renderer is called twice, first by the handler at the
    resolution of the render it was created in, then by the effect at the
    new one.  With no artwork the handler throws a [TypeError], yet the
    resolution still grows by 10 and no renderer call is made. *)
Theorem skip_renders_stale_then_fresh (w : App.World) :
  let w' := App.step w App.Skip in
  dotsWide (App.ui w') = dotsWide (App.ui w) + 10
  /\ (forall a,
         artwork (App.ui w) = Some a ->
         Js.truthy (Artwork.image a) = true ->
         App.trace w'
         = App.trace w ++ [ProcessImage (Artwork.image a) (dotsWide (App.ui w));
                           ProcessImage (Artwork.image a) (dotsWide (App.ui w) + 10)])
  /\ (artwork (App.ui w) = None ->
      outcome (Game.handleSkip (App.ui w) (App.ui w)) = inr TypeError
      /\ App.trace w' = App.trace w).
Proof.
  cbn zeta. split; [by rewrite step_skip_ui|]. split.
  - intros a Hart Himg. unfold App.step. cbn [App.trace App.handler].
    rewrite handleSkip_final, handleSkip_emitted, Hart. f_equal.
    unfold Game.effects. cbn [artwork dotsWide searchValue]. rewrite Hart, Himg.
    destruct (decide (Some a = Some a /\ dotsWide (App.ui w) = dotsWide (App.ui w) + 10))
      as [[_ Hbad]|_]; [lia|].
    by destruct (decide (searchValue (App.ui w) = searchValue (App.ui w))).
  - intros Hnone. split.
    + unfold Game.handleSkip, Game.deref. by rewrite Hnone.
    + unfold App.step. cbn [App.trace App.handler].
      rewrite handleSkip_final, handleSkip_emitted, Hnone.
      unfold Game.effects. cbn [artwork dotsWide searchValue]. rewrite Hnone.
      destruct (decide (None = None /\ _)); destruct (decide (searchValue _ = _));
        try done; by rewrite app_nil_r.
Qed.

(** X9: the resolution shown is always a multiple of 10, and at least 10. *)
Theorem resolution_is_a_multiple_of_ten (w : App.World) (Hreach : App.reachable w) :
  dotsWide (App.ui w) mod 10 = 0 /\ 10 <= dotsWide (App.ui w).
Proof. split; [by apply dotsWide_reachable_mod | by apply dotsWide_reachable]. Qed.

Lemma resolution_is_a_multiple_of_ten_witness :
  dotsWide (App.ui (App.run loaded [App.Skip; App.Skip])) mod 10 = 0.
Proof.
  destruct (resolution_is_a_multiple_of_ten (App.run loaded [App.Skip; App.Skip])
              ltac:(apply feasible_reachable;
                    [exact loaded_reachable | vm_compute; tauto])) as [Hmod _].
  exact Hmod.
Defined.

(** X10: whichever way a guess against a loaded artwork goes, it closes the
    popover, empties the input and empties the result list; and when the
    input was not already empty the debounce effect arms its 300 ms timer
    again. *)
Theorem guess_resets_the_search
  (w : App.World) (a : Artwork.t) (sel : SearchResult.t)
  (Hart : artwork (App.ui w) = Some a) :
  let w' := App.step w (App.Guess sel) in
  open (App.ui w') = false
  /\ searchValue (App.ui w') = ""%string
  /\ searchResults (App.ui w') = []
  /\ (searchValue (App.ui w) <> ""%string -> last (App.trace w') = Some (SetTimeout 300)).
Proof.
  cbn zeta. unfold App.step. cbn [App.ui App.trace App.handler].
  destruct (decide (SearchResult.id sel = Artwork.id a)) as [Hid|Hid].
  - rewrite (handleGuess_match _ a sel Hart Hid). cbn [final emitted].
    repeat split; try done. intros Hsv.
    unfold Game.effects. cbn [searchValue].
    destruct (decide (searchValue (App.ui w) = ""%string)); [done|].
    by rewrite !app_assoc, last_snoc.
  - rewrite (handleGuess_mismatch _ a sel Hart Hid). cbn [final emitted].
    repeat split; try done. intros Hsv.
    unfold Game.effects. cbn [searchValue].
    destruct (decide (searchValue (App.ui w) = ""%string)); [done|].
    by rewrite !app_assoc, last_snoc.
Qed.

Lemma guess_resets_the_search_witness :
  let typed := App.step (App.step loaded (App.InputChange "monet"))
                 (App.SearchDone sample_server "monet") in
  let w' := App.step typed (App.Guess (Search.format_result (sample_item 1))) in
  searchResults (App.ui typed) <> []
  /\ searchResults (App.ui w') = []
  /\ searchValue (App.ui w') = ""%string
  /\ last (App.trace w') = Some (SetTimeout 300).
Proof.
  destruct (guess_resets_the_search
              (App.step (App.step loaded (App.InputChange "monet"))
                 (App.SearchDone sample_server "monet"))
              (Fetcher.artwork_of (sample_item 5))
              (Search.format_result (sample_item 1)) eq_refl)
    as (_ & Hsv & Hres & Htimer).
  split; [vm_compute; discriminate|]. split; [exact Hres|]. split; [exact Hsv|].
  exact (Htimer ltac:(vm_compute; discriminate)).
Defined.

Lemma skip_renders_stale_then_fresh_witness :
  App.trace (App.step loaded App.Skip)
  = App.trace loaded
      ++ [ProcessImage (Js.JStr "https://images.example/full.jpg") 10;
          ProcessImage (Js.JStr "https://images.example/full.jpg") 20].
Proof.
  destruct (skip_renders_stale_then_fresh loaded) as (_ & Hloaded & _).
  exact (Hloaded (Fetcher.artwork_of (sample_item 5)) eq_refl eq_refl).
Defined.

(** ** What is on screen *)

Section Screen.

Lemma render_loading s : isLoading s = true -> View.render s = inl View.LoadingCard.
Proof. intros Hl. unfold View.render. by rewrite Hl. Qed.

Lemma render_playing s :
  isLoading s = false ->
  gameState s = "playing"%string ->
  exists controls,
    View.render s = inl (View.GameCard (dotsWide s) (Some controls) None)
    /\ View.items controls = View.render_item (artwork s) <$> searchResults s
    /\ View.input_value controls = searchValue s
    /\ View.popover_open controls = open s.
Proof.
  intros Hl Hp. unfold View.render. rewrite Hl, Hp. cbn. eauto.
Qed.

Lemma render_won s a :
  isLoading s = false ->
  gameState s = "won"%string ->
  artwork s = Some a ->
  View.render s
  = inl (View.GameCard (dotsWide s) None
           (Some {| View.won_title := Artwork.title a; View.won_artist := Artwork.artist a;
                    View.won_year := Artwork.year a;
                    View.won_department := Artwork.department a |})).
Proof.
  intros Hl Hw Ha. unfold View.render. rewrite Hl, Hw, Ha. reflexivity.
Qed.

End Screen.

(** X7: rendering never throws in a reachable state, and shows exactly one
    of three things: the loading card while loading; the search and skip
    controls, with one item per search result in order, while playing; the
    congratulation block with the loaded artwork's title, artist, date and
    department once won (the artwork that block reads is always there). *)
Theorem render_shows_one_panel (w : App.World) (Hreach : App.reachable w) :
  let s := App.ui w in
  (isLoading s = true /\ View.render s = inl View.LoadingCard)
  \/ (isLoading s = false /\ gameState s = "playing"%string
      /\ exists controls,
          View.render s = inl (View.GameCard (dotsWide s) (Some controls) None)
          /\ View.items controls = View.render_item (artwork s) <$> searchResults s)
  \/ (isLoading s = false /\ gameState s = "won"%string
      /\ exists a,
          artwork s = Some a
          /\ View.render s
             = inl (View.GameCard (dotsWide s) None
                      (Some {| View.won_title := Artwork.title a;
                               View.won_artist := Artwork.artist a;
                               View.won_year := Artwork.year a;
                               View.won_department := Artwork.department a |}))).
Proof.
  cbn zeta. destruct (isLoading (App.ui w)) eqn:Hl.
  - left. split; [done|]. by apply render_loading.
  - right. destruct (gameState_reachable w Hreach) as [Hp | Hw].
    + left. split; [done|]. split; [done|].
      destruct (render_playing _ Hl Hp) as (c & Hr & Hi & _). eauto.
    + right. split; [done|]. split; [done|].
      destruct (reachable_settled w Hreach) as (_ & _ & Hloaded & _).
      destruct (Hloaded Hw) as [a Ha]. exists a. split; [done|].
      by apply render_won.
Qed.

Lemma render_shows_one_panel_witness :
  View.render (App.ui (App.step loaded (App.Guess (Search.format_result (sample_item 5)))))
  = inl (View.GameCard 10 None
           (Some {| View.won_title := Js.JStr "Water Lilies";
                    View.won_artist := Js.JStr "Claude Monet";
                    View.won_year := Js.JStr "1919";
                    View.won_department := Js.JStr "European Paintings" |})).
Proof.
  destruct (render_shows_one_panel
              (App.step loaded (App.Guess (Search.format_result (sample_item 5))))
              ltac:(apply App.reach_step; [exact loaded_reachable | split; reflexivity]))
    as [[Hl _] | [(_ & Hp & _) | (_ & _ & a & Ha & Hr)]].
  - discriminate Hl.
  - discriminate Hp.
  - injection Ha as <-. exact Hr.
Defined.

(** X8: the result list gives the answer away: while an artwork is loaded
    and the game is in play, the check mark of a listed result is visible
    exactly when choosing that result wins the game. *)
Theorem check_mark_marks_the_winning_result
  (w : App.World) (a : Artwork.t) (sel : SearchResult.t)
  (Hart : artwork (App.ui w) = Some a)
  (Hen : App.enabled w (App.Guess sel)) :
  View.item_checked (View.render_item (artwork (App.ui w)) sel) = true
  <-> gameState (App.ui (App.step w (App.Guess sel))) = "won"%string.
Proof.
  destruct Hen as [_ Hplay]. rewrite Hart.
  unfold View.render_item, View.artwork_id, Js.strict_eq. cbn [View.item_checked].
  rewrite bool_decide_eq_true.
  unfold App.step. cbn [App.ui App.handler].
  destruct (decide (SearchResult.id sel = Artwork.id a)) as [Hid|Hid].
  - by rewrite (handleGuess_match _ a sel Hart Hid).
  - rewrite (handleGuess_mismatch _ a sel Hart Hid). cbn [final gameState].
    rewrite Hplay. split; [done|]. discriminate.
Qed.

Lemma check_mark_marks_the_winning_result_witness :
  View.item_checked
    (View.render_item (artwork (App.ui loaded)) (Search.format_result (sample_item 5)))
  = true
  /\ View.item_checked
       (View.render_item (artwork (App.ui loaded)) (Search.format_result (sample_item 1)))
     = false.
Proof.
  destruct (check_mark_marks_the_winning_result loaded (Fetcher.artwork_of (sample_item 5))
              (Search.format_result (sample_item 5)) eq_refl (conj eq_refl eq_refl))
    as [_ Hwin].
  split; [exact (Hwin eq_refl) | reflexivity].
Defined.

(** ** Searches that succeed *)

Section SearchSucceeds.
Import Api Search.

Lemma promise_all_bodies {A} (rs : list (response A)) :
  (forall i r, rs !! i = Some r -> exists a, r = Body a) ->
  exists l, promise_all rs = inl l.
Proof.
  induction rs as [|r rs IH]; intros Hall; [by exists []|].
  destruct (Hall 0%nat r eq_refl) as [a ->].
  destruct IH as [l Hl].
  { intros i r' Hi. by apply (Hall (S i)). }
  exists (a :: l). simpl. by rewrite Hl.
Qed.

Lemma promise_all_body {A} (rs : list (response A)) (l : list A) i a :
  promise_all rs = inl l -> rs !! i = Some (Body a) -> l !! i = Some a.
Proof.
  revert l i. induction rs as [|[f|b] rs IH]; intros l i; simpl.
  - by rewrite lookup_nil.
  - done.
  - destruct (promise_all rs) as [l'|f] eqn:Hrs; [|done].
    intros [= <-]. destruct i as [|i]; simpl.
    + by intros [= ->].
    + by apply IH.
Qed.

End SearchSucceeds.

(** X11: when the search and all of its detail requests (at most five)
    succeed, nothing is logged and [searchResults] is exactly the records
    that have an image and are in the public domain, formatted, in the order
    of the identifiers of the search reply; so every such record among the
    first five is offered for guessing. *)
Theorem successful_search_lists_every_kept_record
  (srv : Search.Server) (query : string) (s : State) (data : Api.SearchData)
  (Hq : query <> ""%string)
  (Hreply : Search.search_reply srv query = Api.Body data)
  (Hall : forall i id, Search.limitedIds data !! i = Some id ->
                       exists item, Search.object_reply srv i id = Api.Body item) :
  let r := Search.searchArtworks srv query s in
  outcome r = inl tt
  /\ Forall (fun ev => forall msg f, ev <> ConsoleError msg f) (emitted r)
  /\ (exists details,
         length details = length (Search.limitedIds data)
         /\ (forall i id, Search.limitedIds data !! i = Some id ->
               exists item, details !! i = Some item
                            /\ Search.object_reply srv i id = Api.Body item)
         /\ searchResults (final r)
            = Search.format_result <$> List.filter Search.keep details)
  /\ (forall i id item,
         Search.limitedIds data !! i = Some id ->
         Search.object_reply srv i id = Api.Body item ->
         Search.keep item = true ->
         Search.format_result item ∈ searchResults (final r)).
Proof.
  cbn zeta.
  destruct (promise_all_bodies (imap (Search.object_reply srv) (Search.limitedIds data)))
    as [details Hdetails].
  { intros i r Hi. rewrite list_lookup_imap in Hi.
    destruct (Search.limitedIds data !! i) as [id|] eqn:Hid; [|done].
    injection Hi as <-. by apply Hall. }
  assert (Hat : forall i id item,
             Search.limitedIds data !! i = Some id ->
             Search.object_reply srv i id = Api.Body item ->
             details !! i = Some item).
  { intros i id item Hid Hitem. apply (promise_all_body _ _ _ _ Hdetails).
    by rewrite list_lookup_imap, Hid, <- Hitem. }
  destruct (searchArtworks_nonempty srv query s Hq)
    as [f Hr | data' f Hr Hrej | data' details' Hr Hres];
    rewrite Hreply in Hr; try done; injection Hr as <-; [congruence|].
  rewrite Hdetails in Hres. injection Hres as <-.
  cbn [outcome emitted final setSearchResults update searchResults].
  split; [done|]. split.
  { constructor; [done|]. apply Forall_fmap, Forall_forall. by intros id _ msg f. }
  split.
  - exists details. split.
    { apply promise_all_length in Hdetails. by rewrite length_imap in Hdetails. }
    split; [|done]. intros i id Hid. destruct (Hall i id Hid) as [item Hitem].
    exists item. split; [by apply (Hat i id)|done].
  - intros i id item Hid Hitem Hkeep.
    apply list_elem_of_fmap. exists item. split; [done|].
    apply list_elem_of_In, List.filter_In. split; [|done].
    apply list_elem_of_In, list_elem_of_lookup. exists i. by apply (Hat i id).
Qed.

Lemma successful_search_lists_every_kept_record_witness :
  Search.format_result (sample_item 5)
  ∈ searchResults (final (Search.searchArtworks sample_server "monet" initial)).
Proof.
  destruct (successful_search_lists_every_kept_record sample_server "monet" initial
              {| Api.objectIDs := Some [1; 2; 3; 4; 5; 6; 7] |}
              ltac:(discriminate) eq_refl
              ltac:(intros [|[|[|[|[|i]]]]] id [= <-]; eexists; reflexivity))
    as (_ & _ & _ & Hlisted).
  exact (Hlisted 4%nat 5 (sample_item 5) eq_refl eq_refl eq_refl).
Defined.

(** X12: a search that matches nothing (the reply carries no identifier
    list, or an empty one) makes the one search request and no detail
    request, logs nothing, and leaves [searchResults] empty. *)
Theorem search_without_matches
  (srv : Search.Server) (query : string) (s : State) (data : Api.SearchData)
  (Hq : query <> ""%string)
  (Hreply : Search.search_reply srv query = Api.Body data)
  (Hnone : Api.objectIDs data = None \/ Api.objectIDs data = Some []) :
  let r := Search.searchArtworks srv query s in
  outcome r = inl tt
  /\ emitted r = [Fetch (Api.GetSearch query)]
  /\ searchResults (final r) = [].
Proof.
  cbn zeta.
  assert (Hids : Search.limitedIds data = []).
  { unfold Search.limitedIds. by destruct Hnone as [-> | ->]. }
  destruct (searchArtworks_nonempty srv query s Hq)
    as [f Hr | data' f Hr Hrej | data' details' Hr Hres];
    rewrite Hreply in Hr; try done; injection Hr as <-.
  - by rewrite Hids in Hrej.
  - rewrite Hids in Hres. injection Hres as <-. by rewrite Hids.
Qed.

Lemma search_without_matches_witness :
  emitted (Search.searchArtworks sample_server "nothing" initial)
  = [Fetch (Api.GetSearch "nothing")]
  /\ searchResults (final (Search.searchArtworks sample_server "nothing" initial)) = [].
Proof.
  destruct (search_without_matches sample_server "nothing" initial
              {| Api.objectIDs := None |} ltac:(discriminate) eq_refl (or_introl eq_refl))
    as (_ & Hev & Hres).
  split; [exact Hev | exact Hres].
Defined.

(** ** Where the dots fall *)

Section Geometry.
Import Renderer.

(** The height of the hidden canvas for an image and a resolution. *)
Lemma onload_shape img dotsWide :
  0 < dotsWide ->
  let c := onload img dotsWide in
  let w := Z.to_nat dotsWide in
  let h := canvas_height c in
  output_width c = Z.of_nat w * 20
  /\ output_height c = Z.of_nat h * 20
  /\ exists clear,
      centre clear = None
      /\ drawn c
         = clear :: (if (h =? 0)%nat then []
                     else y ← seq 0 h; x ← seq 0 w; [dot_of img w h x y]).
Proof.
  intros Hpos. cbn zeta. unfold onload. cbn zeta.
  set (ch := unsigned_long (Math_round _)).
  assert (Hcw : unsigned_long (Some dotsWide) = Z.to_nat dotsWide) by done.
  rewrite Hcw. set (cw := Z.to_nat dotsWide).
  assert (Hw : (cw =? 0)%nat = false) by (apply Nat.eqb_neq; lia).
  rewrite Hw. cbn [orb].
  destruct (ch =? 0)%nat eqn:Hh;
    cbn [canvas_height output_width output_height drawn]; rewrite Hh;
    (split; [unfold scale; lia|]); (split; [done|]);
    exists (FillRect "white" 0 0 (dotsWide * scale) (Z.of_nat ch * scale));
    (split; [done|]).
  - done.
  - by rewrite loop_dots_spec.
Qed.

Lemma grid_dots_at img w h k d :
  (y ← seq 0 h; x ← seq 0 w; [dot_of img w h x y]) !! k = Some d ->
  (k mod w < w)%nat /\ (k / w < h)%nat /\ d = dot_of img w h (k mod w) (k / w).
Proof.
  intros Hk.
  pose proof (lookup_lt_Some _ _ _ Hk) as Hlt. rewrite grid_dots_length in Hlt.
  assert (k mod w < w)%nat as Hx by (apply Nat.mod_upper_bound; lia).
  assert (k / w < h)%nat as Hy by (apply Nat.Div0.div_lt_upper_bound; lia).
  pose proof (Nat.div_mod_eq k w) as Hdm.
  pose proof (grid_dots_lookup img w h (k mod w) (k / w) Hx Hy) as Hd.
  replace (k / w * w + k mod w)%nat with k in Hd by lia.
  rewrite Hk in Hd. by injection Hd as ->.
Qed.

(** The radius the dots are drawn with, exactly: 2^52 / 2^49. *)
Lemma radius_8_fraction :
  fraction (number 8) = Some (4503599627370496, 562949953421312).
Proof. vm_compute. reflexivity. Qed.

(** Centres 20 apart along an axis are further apart than 8 + 8. *)
Lemma discs_of_radius_8_apart (x1 y1 x2 y2 : Z) :
  20 <= Z.abs (x1 - x2) \/ 20 <= Z.abs (y1 - y2) ->
  0 <= 4503599627370496 /\ 0 <= 4503599627370496
  /\ (4503599627370496 * 562949953421312 + 4503599627370496 * 562949953421312) ^ 2
     < ((x1 - x2) ^ 2 + (y1 - y2) ^ 2) * (562949953421312 * 562949953421312) ^ 2.
Proof.
  intros Hfar. split; [lia|]. split; [lia|].
  assert (Hsq : 400 <= (x1 - x2) ^ 2 + (y1 - y2) ^ 2).
  { pose proof (Z.pow_2_r (x1 - x2)). pose proof (Z.pow_2_r (y1 - y2)).
    destruct Hfar; nia. }
  replace ((4503599627370496 * 562949953421312 + 4503599627370496 * 562949953421312) ^ 2)
    with (256 * (562949953421312 * 562949953421312) ^ 2) by reflexivity.
  apply Z.mul_lt_mono_pos_r; [reflexivity | lia].
Qed.

End Geometry.

(** X15: every dot drawn lies wholly inside the visible canvas, and two
    different dots never meet: with the radius each arc is drawn with (8),
    every disc keeps clear of the four edges and the distance between two
    centres (at least 20) exceeds the sum of the two radii (16). *)
Theorem dots_fit_and_never_overlap
  (img : Renderer.Image) (dotsWide : Z) (Hpos : 0 < dotsWide <= 2147483647) :
  let c := Renderer.onload img dotsWide in
  Forall (inside (Renderer.output_width c) (Renderer.output_height c)) (Renderer.drawn c)
  /\ forall i j d1 d2,
      i <> j ->
      Renderer.drawn c !! i = Some d1 ->
      Renderer.drawn c !! j = Some d2 ->
      apart d1 d2.
Proof.
  cbn zeta.
  destruct (onload_shape img dotsWide ltac:(lia)) as (Hw & Hh & clear & Hclear & Hdrawn).
  cbn zeta in *. rewrite Hw, Hh, Hdrawn.
  set (w := Z.to_nat dotsWide) in *.
  set (h := Renderer.canvas_height (Renderer.onload img dotsWide)) in *.
  assert (Hdots : forall k d,
             (if (h =? 0)%nat then []
              else y ← seq 0 h; x ← seq 0 w; [Renderer.dot_of img w h x y]) !! k = Some d ->
             (k mod w < w)%nat /\ (k / w < h)%nat
             /\ d = Renderer.dot_of img w h (k mod w) (k / w)).
  { intros k d. destruct (h =? 0)%nat; [by rewrite lookup_nil|]. apply grid_dots_at. }
  assert (Hrect : exists style x y rw rh, clear = Renderer.FillRect style x y rw rh).
  { destruct clear; [eauto 6 | done]. }
  destruct Hrect as (style & rx & ry & rw & rh & ->).
  split.
  - constructor; [done|].
    apply Forall_lookup. intros k d Hk.
    destruct (Hdots k d Hk) as (Hx & Hy & ->).
    unfold inside, Renderer.dot_of. cbn zeta. rewrite radius_8_fraction. lia.
  - intros i j d1 d2 Hij Hi Hj.
    destruct i as [|i], j as [|j]; try done; cbn [lookup list_lookup] in Hi, Hj.
    + by injection Hi as <-.
    + injection Hj as <-. by destruct d1.
    + destruct (Hdots i d1 Hi) as (Hxi & Hyi & ->).
      destruct (Hdots j d2 Hj) as (Hxj & Hyj & ->).
      unfold apart, Renderer.dot_of. cbn zeta. rewrite radius_8_fraction.
      apply discs_of_radius_8_apart.
      pose proof (Nat.div_mod_eq i w). pose proof (Nat.div_mod_eq j w).
      assert ((i mod w)%nat <> (j mod w)%nat \/ (i / w)%nat <> (j / w)%nat) as [Hx | Hy].
      { destruct (decide ((i mod w)%nat = (j mod w)%nat)); [|by left].
        destruct (decide ((i / w)%nat = (j / w)%nat)); [|by right].
        exfalso. apply Hij. f_equal. nia. }
      * left. lia.
      * right. lia.
Qed.

Lemma dots_fit_and_never_overlap_witness :
  let c := Renderer.onload Renderer.sample_image 10 in
  Forall (inside 200 160) (Renderer.drawn c)
  /\ apart (Renderer.dot_of Renderer.sample_image 10 8 0 0)
           (Renderer.dot_of Renderer.sample_image 10 8 1 0).
Proof.
  destruct (dots_fit_and_never_overlap Renderer.sample_image 10 ltac:(lia)) as [Hfit Hapart].
  split; [exact Hfit|].
  exact (Hapart 1%nat 2%nat _ _ ltac:(lia) eq_refl eq_refl).
Defined.

(** ** Which dates share an artwork *)

Section SharedArtworks.
Import Daily.

Lemma codes_as_digits (cs : list Ascii.ascii) :
  foldr Z.add 0 (charCodeAt0 <$> cs)
  = 48 * Z.of_nat (length cs) + foldr Z.add 0 (digit_value <$> cs).
Proof.
  induction cs as [|c cs IH]; [done|].
  rewrite !fmap_cons. cbn [foldr length]. rewrite IH. unfold digit_value. lia.
Qed.

Lemma sum_permutation (l1 l2 : list Z) :
  l1 ≡ₚ l2 -> foldr Z.add 0 l1 = foldr Z.add 0 l2.
Proof.
  induction 1 as [| x l1 l2 _ IH | x y l | l1 l2 l3 _ IH1 _ IH2]; simpl; lia.
Qed.

End SharedArtworks.

(** X16: for a date whose year has at most four digits the modulus never
    comes into play: the identifier is 385 plus the sum of the eight digits
    of the date, hence one of the 73 values from 385 to 457. *)
Theorem daily_id_is_385_plus_the_digit_sum
  (d : Daily.Date)
  (Hy : Z.of_nat (Daily.year d) < 10000)
  (Hm : (Daily.month d < 100)%nat) (Hd : (Daily.day d < 100)%nat) :
  Daily.getDailyArtworkId d
  = 385 + foldr Z.add 0
            (digit_value <$> String.list_ascii_of_string (Daily.format_yyyyMMdd d))
  /\ 385 <= Daily.getDailyArtworkId d <= 457.
Proof.
  destruct (getDailyArtworkId_small d Hy Hm Hd) as [Hid Hrange].
  destruct (format_yyyyMMdd_digits d Hy Hm Hd) as [Hlen _].
  split; [|done].
  rewrite Hid, seed_of_sum. unfold sum_of_char_codes.
  rewrite codes_as_digits, Hlen. lia.
Qed.

Lemma daily_id_is_385_plus_the_digit_sum_witness :
  Daily.getDailyArtworkId a_day = 385 + (2 + 0 + 2 + 4 + 0 + 1 + 1 + 5).
Proof.
  destruct (daily_id_is_385_plus_the_digit_sum a_day
              ltac:(vm_compute; reflexivity) ltac:(vm_compute; lia) ltac:(vm_compute; lia))
    as [Hid _].
  exact Hid.
Defined.

(** X17: the identifier depends only on which characters the formatted
    date holds, not on their order: two dates whose yyyyMMdd strings are
    rearrangements of one another get the same artwork. *)
Theorem rearranged_dates_share_the_artwork
  (d1 d2 : Daily.Date)
  (Hperm : String.list_ascii_of_string (Daily.format_yyyyMMdd d1)
           ≡ₚ String.list_ascii_of_string (Daily.format_yyyyMMdd d2)) :
  Daily.getDailyArtworkId d1 = Daily.getDailyArtworkId d2.
Proof.
  unfold Daily.getDailyArtworkId. rewrite !seed_of_sum. unfold sum_of_char_codes.
  f_equal. f_equal. apply sum_permutation. by apply fmap_Permutation.
Qed.

Lemma rearranged_dates_share_the_artwork_witness :
  Daily.getDailyArtworkId {| Daily.year := 2024; Daily.month := 1; Daily.day := 12 |}
  = Daily.getDailyArtworkId {| Daily.year := 2024; Daily.month := 1; Daily.day := 21 |}.
Proof.
  apply rearranged_dates_share_the_artwork.
  vm_compute. do 6 apply perm_skip. apply perm_swap.
Defined.

(** ** The debounced search *)

Section Debounce.

Lemma step_search_searchValue w srv query :
  searchValue (App.ui (App.step w (App.SearchDone srv query))) = searchValue (App.ui w).
Proof.
  unfold App.step. cbn [App.ui App.handler].
  by destruct (searchArtworks_only_results srv query (App.ui w)) as [l ->].
Qed.

Lemma finish_keeps (P : string -> Prop) query running :
  Forall P running -> Forall P (Session.finish query running).
Proof.
  induction 1 as [|q rest Hq Hrest IH]; simpl; [done|].
  destruct (String.eqb query q); [done | by constructor].
Qed.

Lemma session_world_reachable s : Session.reachable s -> App.reachable (Session.world s).
Proof.
  induction 1 as [now | s a _ IH Hen]; [constructor|].
  destruct a as [act | | srv query]; cbn [Session.step].
  - destruct Hen as [_ Hen]. by apply App.reach_step.
  - destruct (Session.timer s) as [query|]; [|done].
    destruct (String.eqb query ""); [|done]. by apply App.reach_step.
  - by apply App.reach_step.
Qed.

(** The result list a search produces does not depend on the state it
    started from. *)
Lemma search_results_any_state srv query s1 s2 :
  searchResults (final (Search.searchArtworks srv query s1))
  = searchResults (final (Search.searchArtworks srv query s2)).
Proof.
  destruct (decide (query = ""%string)) as [->|Hq]; [done|].
  destruct (searchArtworks_nonempty srv query s1 Hq)
    as [f1 H1 | d1 f1 H1 R1 | d1 l1 H1 R1];
    destruct (searchArtworks_nonempty srv query s2 Hq)
      as [f2 H2 | d2 f2 H2 R2 | d2 l2 H2 R2];
    try done; rewrite H1 in H2; try done; injection H2 as <-;
    rewrite R1 in R2; try done. by injection R2 as <-.
Qed.

End Debounce.

(** X18: the debounce keeps one timer at most, and it is always for the
    value now in the input: a keystroke replaces the pending timer.  The
    searches that are running are all for non-empty queries. *)
Theorem timer_is_for_the_current_input (s : Session.t) (Hreach : Session.reachable s) :
  (forall query, Session.timer s = Some query ->
                 query = searchValue (App.ui (Session.world s)))
  /\ Forall (fun query => query <> ""%string) (Session.searching s).
Proof.
  induction Hreach as [now | s a _ [IHt IHs] Hen]; [by split; [intros q [= <-]|]|].
  destruct a as [act | | srv query]; cbn [Session.step].
  - cbn [Session.timer Session.world Session.searching]. split; [|done].
    unfold Session.rearm. intros q.
    destruct (decide (searchValue (App.ui (Session.world s))
                      = searchValue (App.ui (App.step (Session.world s) act))))
      as [Hsame|_].
    + rewrite <- Hsame. apply IHt.
    + by intros [= <-].
  - destruct (Session.timer s) as [query|] eqn:Htimer;
      [|split; [intros q Hq; congruence | done]].
    destruct (String.eqb_spec query "") as [->|Hne];
      cbn [Session.timer Session.world Session.searching].
    + by split.
    + split; [done|]. by constructor.
  - cbn [Session.timer Session.world Session.searching]. split.
    + rewrite step_search_searchValue. apply IHt.
    + by apply finish_keeps.
Qed.

Lemma timer_is_for_the_current_input_witness :
  let s := Session.run (Session.mount a_day)
             [Session.Ui (App.DailyResponse a_day (Api.Body (sample_item 5)));
              Session.Ui (App.InputChange "mo");
              Session.Ui (App.InputChange "monet")] in
  Session.timer s = Some "monet"%string
  /\ searchValue (App.ui (Session.world s)) = "monet"%string.
Proof.
  destruct (timer_is_for_the_current_input
              (Session.run (Session.mount a_day)
                 [Session.Ui (App.DailyResponse a_day (Api.Body (sample_item 5)));
                  Session.Ui (App.InputChange "mo");
                  Session.Ui (App.InputChange "monet")])
              ltac:(repeat (apply Session.reach_step);
                    [constructor | vm_compute; split; [reflexivity | lia] ..
                     | vm_compute; tauto | vm_compute; tauto]))
    as [Htimer _].
  split; [reflexivity|]. symmetry. exact (Htimer "monet"%string eq_refl).
Defined.

Section StaleSearch.

Lemma overtaken_run srv query v :
  query <> ""%string -> v <> query ->
  let s := Session.run (Session.mount a_day) (overtaken srv query v) in
  Session.reachable s
  /\ searchValue (App.ui (Session.world s)) = v
  /\ Session.timer s = Some v
  /\ Session.searching s = []
  /\ searchResults (App.ui (Session.world s))
     = searchResults (final (Search.searchArtworks srv query initial)).
Proof.
  intros Hq Hv. cbn zeta. unfold overtaken, Session.run. cbn [foldl].
  set (s1 := Session.step (Session.mount a_day) _).
  assert (H1 : Session.reachable s1 /\ Session.timer s1 = Some ""%string
               /\ Session.searching s1 = []
               /\ isLoading (App.ui (Session.world s1)) = false
               /\ gameState (App.ui (Session.world s1)) = "playing"%string
               /\ searchValue (App.ui (Session.world s1)) = ""%string).
  { split; [|by repeat split].
    apply Session.reach_step; [constructor|]. split; [done|]. simpl. lia. }
  destruct H1 as (R1 & T1 & S1 & L1 & G1 & V1).
  set (s2 := Session.step s1 (Session.Ui (App.InputChange query))).
  assert (H2 : Session.reachable s2 /\ Session.timer s2 = Some query
               /\ Session.searching s2 = []
               /\ isLoading (App.ui (Session.world s2)) = false
               /\ gameState (App.ui (Session.world s2)) = "playing"%string
               /\ searchValue (App.ui (Session.world s2)) = query).
  { split; [by apply Session.reach_step|].
    subst s2. cbn [Session.step Session.timer Session.searching Session.world].
    unfold Session.rearm.
    change (searchValue (App.ui (App.step (Session.world s1) (App.InputChange query))))
      with query.
    rewrite V1. destruct (decide (""%string = query)) as [Hbad|_]; [by destruct Hq|].
    by repeat split. }
  destruct H2 as (R2 & T2 & S2 & L2 & G2 & V2).
  set (s3 := Session.step s2 Session.TimerFires).
  assert (H3 : Session.reachable s3 /\ Session.timer s3 = None
               /\ Session.searching s3 = [query]
               /\ Session.world s3 = Session.world s2).
  { split; [apply Session.reach_step; [done|]; cbn [Session.enabled]; rewrite T2; eauto|].
    subst s3. cbn [Session.step]. rewrite T2.
    destruct (String.eqb_spec query "") as [Hbad|_]; [by destruct Hq|].
    cbn [Session.timer Session.searching Session.world]. by rewrite S2. }
  destruct H3 as (R3 & T3 & S3 & W3).
  set (s4 := Session.step s3 (Session.Ui (App.InputChange v))).
  assert (H4 : Session.reachable s4 /\ Session.timer s4 = Some v
               /\ Session.searching s4 = [query]
               /\ searchValue (App.ui (Session.world s4)) = v).
  { split; [apply Session.reach_step; [done|]; split; [done|];
            cbn [App.enabled]; by rewrite W3|].
    subst s4. cbn [Session.step Session.timer Session.searching Session.world].
    unfold Session.rearm.
    change (searchValue (App.ui (App.step (Session.world s3) (App.InputChange v)))) with v.
    rewrite W3, V2. destruct (decide (query = v)) as [Hbad|_]; [by destruct Hv|].
    by repeat split. }
  destruct H4 as (R4 & T4 & S4 & V4).
  split; [apply Session.reach_step; [done|]; cbn [Session.enabled]; rewrite S4;
          apply list_elem_of_here|].
  cbn [Session.step Session.timer Session.searching Session.world].
  rewrite step_search_searchValue, S4. cbn [Session.finish].
  rewrite String.eqb_refl. repeat split; try done.
  unfold App.step. cbn [App.ui App.handler]. apply search_results_any_state.
Qed.

End StaleSearch.

(** X19: a search is never cancelled, so its replies can arrive after the
    input has moved on: for every server, every non-empty query and every
    other input value there is a reachable session in which the input (and
    the pending timer) hold the new value while [searchResults] holds the
    results of the old query. *)
Theorem late_replies_overwrite_the_results
  (srv : Search.Server) (query v : string)
  (Hq : query <> ""%string) (Hv : v <> query) :
  exists s,
    Session.reachable s
    /\ searchValue (App.ui (Session.world s)) = v
    /\ Session.timer s = Some v
    /\ searchResults (App.ui (Session.world s))
       = searchResults (final (Search.searchArtworks srv query initial)).
Proof.
  exists (Session.run (Session.mount a_day) (overtaken srv query v)).
  by destruct (overtaken_run srv query v Hq Hv) as (Hr & Hval & Ht & _ & Hres).
Qed.

Lemma late_replies_overwrite_the_results_witness :
  exists s,
    Session.reachable s
    /\ searchValue (App.ui (Session.world s)) = "picasso"%string
    /\ SearchResult.id <$> searchResults (App.ui (Session.world s))
       = [Js.JNum 1; Js.JNum 5].
Proof.
  destruct (late_replies_overwrite_the_results sample_server "monet" "picasso"
              ltac:(discriminate) ltac:(discriminate))
    as (s & Hreach & Hval & _ & Hres).
  exists s. split; [exact Hreach|]. split; [exact Hval|]. rewrite Hres. reflexivity.
Defined.

(** ** How the daily fetch ends *)

Section FetchEnds.

Lemma run_app w acts1 acts2 :
  App.run w (acts1 ++ acts2) = App.run (App.run w acts1) acts2.
Proof. apply foldl_app. Qed.

Lemma stuck_run acts : forall w,
  App.reachable w ->
  App.inflight w = 0%nat ->
  artwork (App.ui w) = None ->
  feasible w acts ->
  artwork (App.ui (App.run w acts)) = None
  /\ App.inflight (App.run w acts) = 0%nat.
Proof.
  induction acts as [|a acts IH]; intros w Hreach Hzero Hnone Hfeas; [done|].
  destruct Hfeas as [Hen Hrest]. rewrite run_cons.
  assert (Hne : forall now resp, a <> App.DailyResponse now resp).
  { intros now resp ->. cbn [App.enabled] in Hen. lia. }
  apply IH; [by apply App.reach_step | | | done].
  - by rewrite (step_inflight_other w a Hne).
  - by rewrite (step_artwork_other w a Hne).
Qed.

End FetchEnds.

(** X13: the retry ends as soon as a reply is eligible: after any number of
    rejected replies, one eligible reply loads its artwork, ends loading and
    leaves no request in flight; all the requests made, one more than the
    rejected replies, were for the same identifier. *)
Theorem retry_ends_with_the_first_eligible_reply
  (now : Daily.Date) (datas : list Api.ObjectData) (data : Api.ObjectData)
  (Hall : Forall ineligible datas) (Hok : Fetcher.eligible data = true) :
  let w := App.run (App.mount now)
             (rejections now datas ++ [App.DailyResponse now (Api.Body data)]) in
  App.reachable w
  /\ artwork (App.ui w) = Some (Fetcher.artwork_of data)
  /\ isLoading (App.ui w) = false
  /\ App.inflight w = 0%nat
  /\ List.filter App.is_daily_fetch (App.trace w)
     = replicate (S (length datas)) (Fetch (Api.GetObject (Daily.getDailyArtworkId now))).
Proof.
  cbn zeta. rewrite run_app.
  destruct (run_rejections now datas (App.mount now) Hall)
    as (Hreach & Hin & Hart & Htr).
  { constructor. }
  { simpl. lia. }
  cbn zeta in *. specialize (Hart eq_refl).
  set (w := App.run (App.mount now) (rejections now datas)) in *.
  change (App.run w [App.DailyResponse now (Api.Body data)])
    with (App.step w (App.DailyResponse now (Api.Body data))).
  split.
  { apply App.reach_step; [done|]. cbn [App.enabled]. rewrite Hin. simpl. lia. }
  rewrite (step_daily_eligible w now data Hok Hart).
  cbn [App.ui App.inflight App.trace artwork isLoading].
  split; [done|]. split; [done|]. split; [rewrite Hin; simpl; lia|].
  rewrite Htr, !List.filter_app, daily_fetches_replicate. cbn [List.filter App.is_daily_fetch].
  by rewrite app_nil_r.
Qed.

Lemma retry_ends_with_the_first_eligible_reply_witness :
  let w := App.run (App.mount a_day)
             (rejections a_day [blank; blank]
              ++ [App.DailyResponse a_day (Api.Body (sample_item 5))]) in
  artwork (App.ui w) = Some (Fetcher.artwork_of (sample_item 5))
  /\ App.inflight w = 0%nat
  /\ List.filter App.is_daily_fetch (App.trace w) = replicate 3 (Fetch (Api.GetObject 400)).
Proof.
  assert (Hblank : ineligible blank) by (left; reflexivity).
  destruct (retry_ends_with_the_first_eligible_reply a_day [blank; blank] (sample_item 5)
              ltac:(repeat constructor; exact Hblank) eq_refl)
    as (_ & Hart & _ & Hin & Htr).
  split; [exact Hart|]. split; [exact Hin | exact Htr].
Defined.

(** X14: a daily fetch that ended without an artwork (a failed request) is
    never tried again: from then on, whatever enabled actions follow, no
    request is in flight, no artwork is loaded, and the game stays in play
    without ever being won. *)
Theorem failed_fetch_is_never_retried
  (w : App.World) (acts : list App.action)
  (Hreach : App.reachable w)
  (Hzero : App.inflight w = 0%nat) (Hnone : artwork (App.ui w) = None)
  (Hfeas : feasible w acts) :
  let w' := App.run w acts in
  artwork (App.ui w') = None
  /\ App.inflight w' = 0%nat
  /\ gameState (App.ui w') = "playing"%string.
Proof.
  cbn zeta. destruct (stuck_run acts w Hreach Hzero Hnone Hfeas) as [Hart Hin].
  pose proof (feasible_reachable acts w Hreach Hfeas) as Hreach'.
  split; [done|]. split; [done|].
  destruct (gameState_reachable _ Hreach') as [Hp | Hw]; [done|].
  destruct (reachable_settled _ Hreach') as (_ & _ & Hloaded & _).
  destruct (Hloaded Hw) as [a Ha]. congruence.
Qed.

Lemma failed_fetch_is_never_retried_witness :
  let failed := App.step (App.mount a_day)
                  (App.DailyResponse a_day (Api.Failed Api.NetworkError)) in
  let w' := App.run failed
              [App.Skip; App.SearchDone sample_server "monet";
               App.Guess (Search.format_result (sample_item 5))] in
  artwork (App.ui w') = None /\ gameState (App.ui w') = "playing"%string.
Proof.
  destruct (failed_fetch_is_never_retried
              (App.step (App.mount a_day)
                 (App.DailyResponse a_day (Api.Failed Api.NetworkError)))
              [App.Skip; App.SearchDone sample_server "monet";
               App.Guess (Search.format_result (sample_item 5))]
              ltac:(apply App.reach_step; [constructor | vm_compute; lia])
              eq_refl eq_refl ltac:(vm_compute; tauto))
    as (Hart & _ & Hplay).
  split; [exact Hart | exact Hplay].
Defined.

(** ** Guessing with no artwork loaded *)

Section NoArtwork.

Lemma awaiting_retry_reachable : App.reachable awaiting_retry.
Proof.
  unfold awaiting_retry.
  apply App.reach_step; [|done].
  apply App.reach_step; [|split; reflexivity].
  apply App.reach_step; [constructor|]. simpl. lia.
Qed.

Lemma fetch_failed_reachable : App.reachable fetch_failed.
Proof.
  unfold fetch_failed.
  apply App.reach_step; [|done].
  apply App.reach_step; [|split; reflexivity].
  apply App.reach_step; [constructor|]. simpl. lia.
Qed.

End NoArtwork.

(** C3: the claim fails on a guess made with no artwork loaded.  After one
    rejected daily reply the game is in play at resolution 10 with the
    controls enabled and two results listed; selecting one of them is a guess
    that does not win, yet [handleGuess] throws on [artwork.id] before it
    queues anything, and [dotsWide] is still 10 instead of 20. *)
Theorem guess_with_no_artwork_keeps_dotsWide :
  let sel := Search.format_result (sample_item 1) in
  let w := awaiting_retry in
  let w' := App.step w (App.Guess sel) in
  App.reachable w
  /\ App.enabled w (App.Guess sel)
  /\ sel ∈ searchResults (App.ui w)
  /\ artwork (App.ui w) = None
  /\ outcome (Game.handleGuess (App.ui w) sel (App.ui w)) = inr TypeError
  /\ gameState (App.ui w') = "playing"%string
  /\ dotsWide (App.ui w) = 10
  /\ dotsWide (App.ui w') = 10
  /\ dotsWide (App.ui w') <> dotsWide (App.ui w) + 10.
Proof.
  cbn zeta. split; [exact awaiting_retry_reachable|].
  split; [split; reflexivity|].
  split; [vm_compute; apply list_elem_of_here|].
  repeat split; try reflexivity. vm_compute. discriminate.
Qed.

(** C4: the claim fails for a result selected with no artwork loaded.  After
    a failed daily request the controls are on screen and two results are
    listed; selecting one, whose identifier matches no artwork, makes
    [handleGuess] throw on [artwork.id]: the state stays playing, but
    [dotsWide] does not grow, the renderer is not called, and the popover,
    the input and the result list are left as they were. *)
Theorem handleGuess_throws_with_no_artwork :
  let sel := Search.format_result (sample_item 1) in
  let w := fetch_failed in
  let w' := App.step w (App.Guess sel) in
  App.reachable w
  /\ App.enabled w (App.Guess sel)
  /\ sel ∈ searchResults (App.ui w)
  /\ artwork (App.ui w) = None
  /\ SearchResult.id sel <> View.artwork_id (artwork (App.ui w))
  /\ outcome (Game.handleGuess (App.ui w) sel (App.ui w)) = inr TypeError
  /\ gameState (App.ui w') = "playing"%string
  /\ dotsWide (App.ui w') = dotsWide (App.ui w)
  /\ App.trace w' = App.trace w
  /\ w' = w.
Proof.
  cbn zeta. split; [exact fetch_failed_reachable|].
  split; [split; reflexivity|].
  split; [vm_compute; apply list_elem_of_here|].
  split; [reflexivity|]. split; [vm_compute; discriminate|].
  repeat split; reflexivity.
Qed.
